(** * pysubs2 (bytes variant): SubRip and SubStation codecs

    A shallow embedding of [pysubs2/substation.py] and [pysubs2/subrip.py]
    and the properties of their timestamp codec, override-tag engine,
    parsers and serializers. *)

From Stdlib Require Import Ascii String.
From Stdlib Require Import List ZArith Bool Lia Arith.
Import ListNotations.

(** ** Byte strings *)

(** Python [bytes] (and the ASCII [str] values the code builds) are
    sequences of 8-bit characters. *)
Definition text := list ascii.

(** A literal: [b "abc"] stands for Python's [b"abc"]. *)
Definition b (s : string) : text := list_ascii_of_string s.

Definition LF : ascii := "010"%char.
Definition CR : ascii := "013"%char.

Definition code (c : ascii) : N := N_of_ascii c.

Definition between (lo hi c : ascii) : bool :=
  (code lo <=? code c)%N && (code c <=? code hi)%N.

Definition is_char (x c : ascii) : bool := Ascii.eqb x c.

(** [\d] of a bytes pattern: [0-9]. *)
Definition is_digit (c : ascii) : bool := between "0" "9" c.

(** [\s] of a bytes pattern, and what [bytes.strip()] removes:
    space, tab, newline, return, form feed, vertical tab. *)
Definition is_space (c : ascii) : bool :=
  is_char " " c || between "009" "013" c.

Definition is_lower (c : ascii) : bool := between "a" "z" c.
Definition is_upper (c : ascii) : bool := between "A" "Z" c.
Definition is_alpha (c : ascii) : bool := is_lower c || is_upper c.

Definition text_eq_dec : forall x y : text, {x = y} + {x <> y} :=
  list_eq_dec ascii_dec.

Definition text_eqb (x y : text) : bool :=
  if text_eq_dec x y then true else false.

Fixpoint startswith (s p : text) {struct p} : bool :=
  match p, s with
  | [], _ => true
  | _ :: _, [] => false
  | x :: p', c :: s' => Ascii.eqb x c && startswith s' p'
  end.

Definition endswith (s p : text) : bool := startswith (rev s) (rev p).

(** [p in s] for byte strings: [p] occurs in [s] as a substring. *)
Fixpoint contains (s p : text) : bool :=
  startswith s p ||
  match s with
  | [] => false
  | _ :: s' => contains s' p
  end.

Fixpoint dropwhile (p : ascii -> bool) (s : text) : text :=
  match s with
  | [] => []
  | c :: s' => if p c then dropwhile p s' else s
  end.

Definition lstrip (s : text) : text := dropwhile is_space s.
Definition rstrip (s : text) : text := rev (dropwhile is_space (rev s)).
Definition strip (s : text) : text := rstrip (lstrip s).

(** [s.split(sep, maxsplit)] for a one-character separator; [None] is
    no limit. *)
Fixpoint split_char (sep : ascii) (maxsplit : option nat) (s : text) : list text :=
  match maxsplit with
  | Some O => [s]
  | _ =>
    match s with
    | [] => [[]]
    | c :: s' =>
      if Ascii.eqb c sep then [] :: split_char sep (option_map pred maxsplit) s'
      else
        match split_char sep maxsplit s' with
        | f :: fs => (c :: f) :: fs
        | [] => [[c]]
        end
    end
  end.

(** [sep.join(parts)] with the empty separator. *)
Definition join (parts : list text) : text := List.concat parts.

(** ** Regular expressions

    The patterns of the two modules only repeat single character classes,
    so the syntax below covers them all.  Matching follows the [re]
    module: alternatives in order, repetitions greedy, the first complete
    match in backtracking order wins. *)
Module Re.

Inductive regex : Type :=
| Lit (t : text)                                     (* literal characters *)
| Cls (p : ascii -> bool)                            (* one character of a class *)
| Rep (p : ascii -> bool) (lo : nat) (hi : option nat) (* greedy [p{lo,hi}] *)
| Cat (r1 r2 : regex)
| Alt (r1 r2 : regex)
| Grp (r : regex)                                    (* capturing group *)
| Bos                                                (* [^] *)
| Eos.                                               (* [$] *)

Definition Star (p : ascii -> bool) : regex := Rep p 0 None.
Definition Plus (p : ascii -> bool) : regex := Rep p 1 None.
Definition Opt (p : ascii -> bool) : regex := Rep p 0 (Some 1%nat).

(** Number of leading characters of [s] in class [p], at most [hi]. *)
Fixpoint span (p : ascii -> bool) (hi : option nat) (s : text) : nat :=
  match hi with
  | Some O => O
  | _ =>
    match s with
    | [] => O
    | c :: s' => if p c then S (span p (option_map pred hi) s') else O
    end
  end.

(** [n, n-1, ..., lo]: the repetition counts a greedy quantifier tries. *)
Fixpoint counts_down (n lo : nat) : list nat :=
  if (n <? lo)%nat then []
  else n :: match n with
            | O => []
            | S n' => counts_down n' lo
            end.

(** All the ways [r] matches a prefix of [s], in backtracking order; each
    is the list of captured groups and the unread rest of [s].  [bol]
    says that [s] starts at the beginning of the subject. *)
Fixpoint matches (r : regex) (bol : bool) (s : text) : list (list text * text) :=
  match r with
  | Lit t => if startswith s t then [([], skipn (length t) s)] else []
  | Cls p =>
    match s with
    | c :: s' => if p c then [([], s')] else []
    | [] => []
    end
  | Rep p lo hi =>
    map (fun k => ([], skipn k s)) (counts_down (span p hi s) lo)
  | Cat r1 r2 =>
    flat_map
      (fun '(g1, s1) =>
         map (fun '(g2, s2) => (g1 ++ g2, s2))
             (matches r2 (bol && (length s1 =? length s)%nat) s1))
      (matches r1 bol s)
  | Alt r1 r2 => matches r1 bol s ++ matches r2 bol s
  | Grp r1 =>
    map (fun '(g, s') => (firstn (length s - length s') s :: g, s'))
        (matches r1 bol s)
  | Bos => if bol then [([], s)] else []
  | Eos =>
    match s with
    | [] => [([], s)]
    | c :: [] => if Ascii.eqb c LF then [([], s)] else []
    | _ => []
    end
  end.

(** [pattern.match(s)]: the groups and the rest after the match. *)
Definition re_match (r : regex) (s : text) : option (list text * text) :=
  hd_error (matches r true s).

(** Truth value of a match object. *)
Definition found {A : Type} (m : option A) : bool :=
  match m with Some _ => true | None => false end.

(** The matched text of a successful match on [s] that left [rest]. *)
Definition matched (s rest : text) : text :=
  firstn (length s - length rest) s.

(** A subject cut into its leftmost non-overlapping matches and the
    characters between them, as [finditer] walks it.  No pattern of the
    two modules matches the empty string, so a match of length zero is
    read as no match. *)
Inductive token : Type :=
| TChar (c : ascii)
| TMatch (m : text) (groups : list text).

Fixpoint scan_from (r : regex) (bol : bool) (skip : nat) (s : text) : list token :=
  match s with
  | [] => []
  | c :: s' =>
    match skip with
    | S k => scan_from r false k s'
    | O =>
      match hd_error (matches r bol s) with
      | Some (g, rest) =>
        match (length s - length rest)%nat with
        | O => TChar c :: scan_from r false 0 s'
        | S k => TMatch (matched s rest) g :: scan_from r false k s'
        end
      | None => TChar c :: scan_from r false 0 s'
      end
    end
  end.

Definition scan (r : regex) (s : text) : list token := scan_from r true 0 s.

(** [pattern.findall(s)] for a pattern without groups: the matched texts. *)
Definition findall (r : regex) (s : text) : list text :=
  flat_map (fun t => match t with TChar _ => [] | TMatch m _ => [m] end)
           (scan r s).

(** [pattern.findall(s)] for a pattern with several groups: their tuples. *)
Definition findall_groups (r : regex) (s : text) : list (list text) :=
  flat_map (fun t => match t with TChar _ => [] | TMatch _ g => [g] end)
           (scan r s).

(** [re.sub(pattern, repl, s)] with a replacement free of group references. *)
Definition sub (r : regex) (repl : text) (s : text) : text :=
  flat_map (fun t => match t with TChar c => [c] | TMatch _ _ => repl end)
           (scan r s).

Fixpoint split_tokens (ts : list token) : list text :=
  match ts with
  | [] => [[]]
  | TChar c :: ts' =>
    match split_tokens ts' with
    | f :: fs => (c :: f) :: fs
    | [] => [[c]]
    end
  | TMatch _ _ :: ts' => [] :: split_tokens ts'
  end.

(** [pattern.split(s)] for a pattern without groups. *)
Definition split (r : regex) (s : text) : list text :=
  split_tokens (scan r s).

End Re.

(** [bytes.replace(old, new)] for a non-empty [old]. *)
Definition replace (old new s : text) : text := Re.sub (Re.Lit old) new s.

(** ** Decimal numbers *)

Local Open Scope Z_scope.

Definition digit_char (d : Z) : ascii :=
  if d <? 10 then ascii_of_N (48 + Z.to_N d) else ascii_of_N (55 + Z.to_N d).

Definition digit_value (c : ascii) : Z := Z.of_N (code c) - 48.

(** The digits of a non-negative integer in a base up to 16, upper case. *)
Fixpoint digits_fuel (base : Z) (fuel : nat) (n : Z) : text :=
  match fuel with
  | O => []
  | S f =>
    if n <? base then [digit_char n]
    else digits_fuel base f (n / base) ++ [digit_char (n mod base)]
  end.

Definition digits (base n : Z) : text :=
  digits_fuel base (S (Z.to_nat (Z.log2 n))) n.

(** Sign first, then the digits zero-padded to [width] characters in all. *)
Definition format_0 (base : Z) (width : nat) (n : Z) : text :=
  let sign := if n <? 0 then b "-" else [] in
  let ds := digits base (Z.abs n) in
  sign ++ repeat "0"%char (width - length sign - length ds) ++ ds.

(** [format(n, "0<width>d")] and [format(n, "0<width>X")]. *)
Definition format_0d (width : nat) (n : Z) : text := format_0 10 width n.
Definition format_0X (width : nat) (n : Z) : text := format_0 16 width n.

(** [int(g)] for a group of decimal digits. *)
Definition int_of_digits (g : text) : Z :=
  fold_left (fun acc c => 10 * acc + digit_value c) g 0.

(** ** Time codec (pysubs2/time.py) *)
Module Time.

(** Modelled from the spec: [time.make_time] is not under src/.  The spec
    gives the two largest timestamps, 9:59:59.99 as 35999990 and
    99:59:59.999 as 359999999 milliseconds, which [make_time(h=10) - 10]
    and [make_time(h=100) - 1] are with the clock weights below. *)
Definition make_time (h m s ms : Z) : Z :=
  ms + s * 1000 + m * 60000 + h * 3600000.

(** Modelled from the spec: [time.ms_to_times] is not under src/.  It cuts
    milliseconds into hours, minutes, seconds and the millisecond
    remainder [ms % 1000] that the spec's rounding formula reads. *)
Definition ms_to_times (ms : Z) : Z * Z * Z * Z :=
  let h := ms / 3600000 in
  let ms := ms mod 3600000 in
  let m := ms / 60000 in
  let ms := ms mod 60000 in
  let s := ms / 1000 in
  let ms := ms mod 1000 in
  (h, m, s, ms).

(** Modelled from the spec: [time.TIMESTAMP] is not under src/.  The long
    grammar of both formats, [H:MM:SS.cc] and [HH:MM:SS,mmm]: clock fields
    of one or two digits, a dot or a comma, one to three fraction digits:
    [(\d{1,2}):(\d{1,2}):(\d{1,2})[.,](\d{1,3})]. *)
Definition TIMESTAMP : Re.regex :=
  Re.Cat (Re.Grp (Re.Rep is_digit 1 (Some 2%nat)))
  (Re.Cat (Re.Lit (b ":"))
  (Re.Cat (Re.Grp (Re.Rep is_digit 1 (Some 2%nat)))
  (Re.Cat (Re.Lit (b ":"))
  (Re.Cat (Re.Grp (Re.Rep is_digit 1 (Some 2%nat)))
  (Re.Cat (Re.Cls (fun c => is_char "." c || is_char "," c))
          (Re.Grp (Re.Rep is_digit 1 (Some 3%nat)))))))).

(** Modelled from the spec: [time.TIMESTAMP_SHORT] is not under src/.  The
    short fallback grammar, a clock without fraction:
    [(\d{1,2}):(\d{2}):(\d{2})]. *)
Definition TIMESTAMP_SHORT : Re.regex :=
  Re.Cat (Re.Grp (Re.Rep is_digit 1 (Some 2%nat)))
  (Re.Cat (Re.Lit (b ":"))
  (Re.Cat (Re.Grp (Re.Rep is_digit 2 (Some 2%nat)))
  (Re.Cat (Re.Lit (b ":"))
          (Re.Grp (Re.Rep is_digit 2 (Some 2%nat)))))).

(** Modelled from the spec: [time.timestamp_to_ms] is not under src/.  It
    takes the groups of a timestamp match; the fraction digits are scaled
    to milliseconds (two digits are centiseconds, three milliseconds), and
    the short grammar has no fraction.  Any other number of groups is an
    error. *)
Definition timestamp_to_ms (groups : list text) : option Z :=
  match groups with
  | [h; m; s; frac] =>
    let ms := int_of_digits frac * 10 ^ (3 - Z.of_nat (length frac)) in
    Some (ms + int_of_digits s * 1000 + int_of_digits m * 60000
          + int_of_digits h * 3600000)
  | [h; m; s] =>
    Some (int_of_digits s * 1000 + int_of_digits m * 60000
          + int_of_digits h * 3600000)
  | _ => None
  end.

(** Modelled from the spec: the contract [timestamp_to_ms(text) -> ms] of
    the time codec, as the parsers apply it: match the long grammar at the
    start of the text and convert its groups. *)
Definition parse_timestamp (t : text) : option Z :=
  match Re.re_match TIMESTAMP t with
  | Some (groups, _) => timestamp_to_ms groups
  | None => None
  end.

End Time.

(** ** Python values and the document model *)

(** A [str] or a [bytes] object.  The two never compare equal in Python,
    whatever their characters: a dictionary keeps ["ScriptType"] and
    [b"ScriptType"] as two keys. *)
Inductive pystr : Type :=
| Str (t : text)
| Bytes (t : text).

Definition pystr_eqb (x y : pystr) : bool :=
  match x, y with
  | Str s, Str t => text_eqb s t
  | Bytes s, Bytes t => text_eqb s t
  | _, _ => false
  end.

Definition pystr_chars (x : pystr) : text :=
  match x with Str t => t | Bytes t => t end.

(** A binary64 float, by its bit pattern; the codecs only carry floats. *)
Inductive pyfloat : Type := Float (bits : Z).

(** Modelled from the spec: [common.Color] is not under src/.  A 4-tuple
    (r, g, b, a), each 0..255. *)
Module Color.
Record t : Type := mk { r : Z; g : Z; b : Z; a : Z }.
End Color.

(** Modelled from the spec: [common.Alignment] is not under src/.  An
    enumeration of nine grid positions; a member carries its number
    ([al.value]). *)
Inductive Alignment : Type := Align (value : Z).

(** The values the codecs read from and store into line attributes. *)
Inductive pyval : Type :=
| VNone
| VBool (x : bool)
| VInt (n : Z)
| VFloat (x : pyfloat)
| VStr (t : text)
| VBytes (t : text)
| VColor (c : Color.t)
| VAlignment (al : Alignment).

Definition val_of_pystr (x : pystr) : pyval :=
  match x with Str t => VStr t | Bytes t => VBytes t end.

Inductive exn : Type :=
| ValueError
| TypeError
| IndexError
| AttributeError
| NotImplementedError
| ContentNotUsable.

Inductive result (A : Type) : Type :=
| Ok (x : A)
| Raise (e : exn).
Arguments Ok {A} x.
Arguments Raise {A} e.

Definition bind {A B : Type} (m : result A) (k : A -> result B) : result B :=
  match m with
  | Ok x => k x
  | Raise e => Raise e
  end.

Notation "x <- m ;; k" := (bind m (fun x => k))
  (at level 61, m at next level, right associativity).

(** *** Dictionaries

    A Python [dict] keeps its keys in insertion order; assigning to a key
    that is present replaces the value in place. *)
Definition dict (V : Type) : Type := list (pystr * V).

Fixpoint dict_get {V : Type} (d : dict V) (k : pystr) : option V :=
  match d with
  | [] => None
  | (k', v) :: d' => if pystr_eqb k' k then Some v else dict_get d' k
  end.

Fixpoint dict_set {V : Type} (d : dict V) (k : pystr) (v : V) : dict V :=
  match d with
  | [] => [(k, v)]
  | (k', v') :: d' =>
    if pystr_eqb k' k then (k', v) :: d' else (k', v') :: dict_set d' k v
  end.

(** [d.get(k, default)]. *)
Definition dict_get_default {V : Type} (d : dict V) (k : pystr) (default : V) : V :=
  match dict_get d k with
  | Some v => v
  | None => default
  end.

(** *** Styles and events *)

(** Modelled from the spec: [ssastyle.SSAStyle] is not under src/.  A
    named bundle of presentation attributes: the fields of
    [STYLE_FIELDS] for either format and the drawing toggle that
    [parse_tags] sets, each with the type that [string_to_field]
    produces for its name. *)
Record SSAStyle : Type := mkStyle {
  fontname : pystr;
  fontsize : pyfloat;
  primarycolor : Color.t;
  secondarycolor : Color.t;
  tertiarycolor : Color.t;
  outlinecolor : Color.t;
  backcolor : Color.t;
  bold : bool;
  italic : bool;
  underline : bool;
  strikeout : bool;
  scalex : pyfloat;
  scaley : pyfloat;
  spacing : pyfloat;
  angle : pyfloat;
  borderstyle : Z;
  outline : pyfloat;
  shadow : pyfloat;
  alignment : Alignment;
  marginl : Z;
  marginr : Z;
  marginv : Z;
  alphalevel : Z;
  encoding : Z;
  drawing : bool
}.

Definition set_italic (s : SSAStyle) (x : bool) : SSAStyle :=
  mkStyle (fontname s) (fontsize s) (primarycolor s) (secondarycolor s)
    (tertiarycolor s) (outlinecolor s) (backcolor s) (bold s) x
    (underline s) (strikeout s) (scalex s) (scaley s) (spacing s) (angle s)
    (borderstyle s) (outline s) (shadow s) (alignment s) (marginl s)
    (marginr s) (marginv s) (alphalevel s) (encoding s) (drawing s).

Definition set_bold (s : SSAStyle) (x : bool) : SSAStyle :=
  mkStyle (fontname s) (fontsize s) (primarycolor s) (secondarycolor s)
    (tertiarycolor s) (outlinecolor s) (backcolor s) x (italic s)
    (underline s) (strikeout s) (scalex s) (scaley s) (spacing s) (angle s)
    (borderstyle s) (outline s) (shadow s) (alignment s) (marginl s)
    (marginr s) (marginv s) (alphalevel s) (encoding s) (drawing s).

Definition set_underline (s : SSAStyle) (x : bool) : SSAStyle :=
  mkStyle (fontname s) (fontsize s) (primarycolor s) (secondarycolor s)
    (tertiarycolor s) (outlinecolor s) (backcolor s) (bold s) (italic s)
    x (strikeout s) (scalex s) (scaley s) (spacing s) (angle s)
    (borderstyle s) (outline s) (shadow s) (alignment s) (marginl s)
    (marginr s) (marginv s) (alphalevel s) (encoding s) (drawing s).

Definition set_strikeout (s : SSAStyle) (x : bool) : SSAStyle :=
  mkStyle (fontname s) (fontsize s) (primarycolor s) (secondarycolor s)
    (tertiarycolor s) (outlinecolor s) (backcolor s) (bold s) (italic s)
    (underline s) x (scalex s) (scaley s) (spacing s) (angle s)
    (borderstyle s) (outline s) (shadow s) (alignment s) (marginl s)
    (marginr s) (marginv s) (alphalevel s) (encoding s) (drawing s).

Definition set_drawing (s : SSAStyle) (x : bool) : SSAStyle :=
  mkStyle (fontname s) (fontsize s) (primarycolor s) (secondarycolor s)
    (tertiarycolor s) (outlinecolor s) (backcolor s) (bold s) (italic s)
    (underline s) (strikeout s) (scalex s) (scaley s) (spacing s) (angle s)
    (borderstyle s) (outline s) (shadow s) (alignment s) (marginl s)
    (marginr s) (marginv s) (alphalevel s) (encoding s) x.

(** Modelled from the spec: [ssaevent.SSAEvent] is not under src/.  One
    subtitle line: the fields of [EVENT_FIELDS] for either format and the
    line type, each with the type that [string_to_field] produces for its
    name; the text-like fields may hold a [str] or a [bytes] object. *)
Record SSAEvent : Type := mkEvent {
  ev_start : Z;
  ev_end : Z;
  ev_text : pystr;
  ev_marked : bool;
  ev_layer : Z;
  ev_style : pystr;
  ev_name : pystr;
  ev_marginl : Z;
  ev_marginr : Z;
  ev_marginv : Z;
  ev_effect : pystr;
  ev_type : pystr
}.

(** Modelled from the spec: [ssafile.SSAFile] is not under src/.  The
    document: two metadata mappings, the style mapping, the two opaque
    attachment mappings and the ordered sequence of events. *)
Record SSAFile : Type := mkFile {
  info : dict pystr;
  aegisub_project : dict pystr;
  styles : dict SSAStyle;
  fonts_opaque : dict (list pystr);
  graphics_opaque : dict (list pystr);
  events : list SSAEvent
}.

(** *** Output

    A sink records the [print] calls it receives: the objects printed,
    the separator and the end string. *)
Record print_call : Type := Print {
  print_args : list pyval;
  print_sep : text;
  print_end : text
}.

Definition print (args : list pyval) : print_call :=
  Print args (b " ") [LF].

(** *** Statements

    A statement of a serializer runs in a world made of the document and
    the sink; it returns a value or raises, and what it did to the world
    before raising stays done. *)
Record world : Type := mkWorld {
  w_subs : SSAFile;
  w_fp : list print_call
}.

Definition stmt (A : Type) : Type := world -> result A * world.

Definition ret {A : Type} (x : A) : stmt A := fun w => (Ok x, w).

Definition raise {A : Type} (e : exn) : stmt A := fun w => (Raise e, w).

(** The value or the exception of a pure computation. *)
Definition lift {A : Type} (r : result A) : stmt A := fun w => (r, w).

Definition seq_ {A B : Type} (m : stmt A) (k : A -> stmt B) : stmt B :=
  fun w =>
    match m w with
    | (Ok x, w') => k x w'
    | (Raise e, w') => (Raise e, w')
    end.

Notation "x <~ m ;; k" := (seq_ m (fun x => k))
  (at level 61, m at next level, right associativity).
Notation "m ;;; k" := (seq_ m (fun _ => k))
  (at level 61, right associativity).

(** The document, as the statement finds it. *)
Definition read_subs : stmt SSAFile := fun w => (Ok (w_subs w), w).

(** [print(..., file=fp)] *)
Definition emit (p : print_call) : stmt unit :=
  fun w => (Ok tt, mkWorld (w_subs w) (w_fp w ++ [p])).

(** [subs.info[k] = v] *)
Definition info_setitem (k v : pystr) : stmt unit :=
  fun w =>
    let subs := w_subs w in
    (Ok tt,
     mkWorld (mkFile (dict_set (info subs) k v) (aegisub_project subs) (styles subs)
                     (fonts_opaque subs) (graphics_opaque subs) (events subs))
             (w_fp w)).

(** [for x in l: body] *)
Fixpoint for_ {A : Type} (l : list A) (body : A -> stmt unit) : stmt unit :=
  match l with
  | [] => ret tt
  | x :: l' => body x ;;; for_ l' body
  end.

(** *** Collaborators outside the two modules

    What the codecs take from Python's built-ins and from the parts of
    the package that are not modelled here. *)
Record Env : Type := mkEnv {
  (** [str(v)], also what an f-string inserts for [{v}] *)
  py_str : pyval -> text;
  (** [float(v)] on a byte string; [None] for a [ValueError] *)
  py_float : text -> option pyfloat;
  (** [Alignment(i)]; [None] when it raises *)
  Alignment_new : Z -> option Alignment;
  (** [Alignment.BOTTOM_CENTER] *)
  BOTTOM_CENTER : Alignment;
  (** [Alignment.from_ssa_alignment(i)]; [None] when it raises *)
  from_ssa_alignment : Z -> option Alignment;
  (** [al.to_ssa_alignment()] *)
  to_ssa_alignment : Alignment -> Z;
  (** whether [Alignment] instances are [numbers.Number]s *)
  Alignment_is_Number : bool;
  (** [SSAEvent.is_comment] *)
  is_comment : SSAEvent -> bool;
  (** [SSAEvent()] and [SSAStyle()], with every attribute at its default *)
  SSAEvent_new : SSAEvent;
  SSAStyle_new : SSAStyle;
  (** [SSAStyle.DEFAULT_STYLE] *)
  DEFAULT_STYLE : SSAStyle
}.

(** *** [int()] on byte strings *)

Definition digit_in_base (base : Z) (c : ascii) : option Z :=
  let d :=
    if is_digit c then Z.of_N (code c) - 48
    else if between "a" "z" c then Z.of_N (code c) - 97 + 10
    else if between "A" "Z" c then Z.of_N (code c) - 65 + 10
    else 36 in
  if d <? base then Some d else None.

(** Digits with single underscores between them. *)
Fixpoint int_body (base : Z) (t : text) (acc : Z) (after_digit : bool) : option Z :=
  match t with
  | [] => if after_digit then Some acc else None
  | c :: t' =>
    if is_char "_" c then
      if after_digit then int_body base t' acc false else None
    else
      match digit_in_base base c with
      | Some d => int_body base t' (base * acc + d) true
      | None => None
      end
  end.

(** [int(t, base)] for base 10 or 16: surrounding whitespace, a sign, for
    base 16 an optional [0x] prefix; [None] for a [ValueError]. *)
Definition py_int_base (base : Z) (t : text) : option Z :=
  let t := strip t in
  let '(sign, t) :=
    match t with
    | c :: t' =>
      if is_char "-" c then (-1, t')
      else if is_char "+" c then (1, t')
      else (1, t)
    | [] => (1, t)
    end in
  let t :=
    if (base =? 16) && (startswith t (b "0x") || startswith t (b "0X")) then
      match skipn 2 t with
      | c :: t' => if is_char "_" c then t' else c :: t'
      | [] => []
      end
    else t in
  option_map (Z.mul sign) (int_body base t 0 false).

Definition py_int (t : text) : option Z := py_int_base 10 t.

(** ** pysubs2/substation.py *)

Inductive format : Type := ASS | SSA.

Definition not_char (x c : ascii) : bool := negb (is_char x c).

(** Modelled from the spec: [SSAEvent.OVERRIDE_SEQUENCE] is not under
    src/.  A brace-enclosed tag group, e.g. [{\i1\b1}]: [{[^}]*}]. *)
Definition OVERRIDE_SEQUENCE : Re.regex :=
  Re.Cat (Re.Lit (b "{")) (Re.Cat (Re.Star (not_char "}")) (Re.Lit (b "}"))).

Module Substation.

Definition STYLE_FIELDS (format_ : format) : list string :=
  match format_ with
  | ASS =>
    ["fontname"; "fontsize"; "primarycolor"; "secondarycolor"; "outlinecolor";
     "backcolor"; "bold"; "italic"; "underline"; "strikeout"; "scalex";
     "scaley"; "spacing"; "angle"; "borderstyle"; "outline"; "shadow";
     "alignment"; "marginl"; "marginr"; "marginv"; "encoding"]%string
  | SSA =>
    ["fontname"; "fontsize"; "primarycolor"; "secondarycolor"; "tertiarycolor";
     "backcolor"; "bold"; "italic"; "borderstyle"; "outline"; "shadow";
     "alignment"; "marginl"; "marginr"; "marginv"; "alphalevel";
     "encoding"]%string
  end.

Definition EVENT_FIELDS (format_ : format) : list string :=
  match format_ with
  | ASS =>
    ["layer"; "start"; "end"; "style"; "name"; "marginl"; "marginr";
     "marginv"; "effect"; "text"]%string
  | SSA =>
    ["marked"; "start"; "end"; "style"; "name"; "marginl"; "marginr";
     "marginv"; "effect"; "text"]%string
  end.

Definition STYLE_FORMAT_LINE (format_ : format) : text :=
  match format_ with
  | ASS =>
    b "Format: Name, Fontname, Fontsize, PrimaryColour, SecondaryColour, OutlineColour, BackColour, Bold, Italic, Underline, StrikeOut, ScaleX, ScaleY, Spacing, Angle, BorderStyle, Outline, Shadow, Alignment, MarginL, MarginR, MarginV, Encoding"
  | SSA =>
    b "Format: Name, Fontname, Fontsize, PrimaryColour, SecondaryColour, TertiaryColour, BackColour, Bold, Italic, BorderStyle, Outline, Shadow, Alignment, MarginL, MarginR, MarginV, AlphaLevel, Encoding"
  end.

Definition EVENT_FORMAT_LINE (format_ : format) : text :=
  match format_ with
  | ASS => b "Format: Layer, Start, End, Style, Name, MarginL, MarginR, MarginV, Effect, Text"
  | SSA => b "Format: Marked, Start, End, Style, Name, MarginL, MarginR, MarginV, Effect, Text"
  end.

(** Largest timestamp allowed in SubStation, ie. 9:59:59.99. *)
Definition MAX_REPRESENTABLE_TIME : Z := Time.make_time 10 0 0 0 - 10.

Definition color_to_ass_rgba (c : Color.t) : text :=
  b "&H" ++
  format_0X 8 (Z.lor (Z.lor (Z.lor (Z.shiftl (Color.a c) 24)
                                   (Z.shiftl (Color.b c) 16))
                            (Z.shiftl (Color.g c) 8))
                     (Color.r c)).

Definition color_to_ssa_rgb (c : Color.t) : text :=
  format_0d 0 (Z.lor (Z.lor (Z.shiftl (Color.b c) 16) (Z.shiftl (Color.g c) 8))
                     (Color.r c)).

Definition rgba_to_color (s : text) : result Color.t :=
  match s with
  | [] => Raise IndexError
  | c :: _ =>
    match (if is_char "&" c then py_int_base 16 (skipn 2 s) else py_int s) with
    | None => Raise ValueError
    | Some x =>
      Ok (Color.mk (Z.land x 255)
                   (Z.land (Z.shiftr x 8) 255)
                   (Z.land (Z.shiftr x 16) 255)
                   (Z.land (Z.shiftr x 24) 255))
    end
  end.

Definition is_valid_field_content (s : text) : bool :=
  negb (contains s [LF]) && negb (contains s (b ",")).

(** *** Override tags *)

(** [\\[ibusp][0-9]|\\r[a-zA-Z_0-9 ]*] *)
Definition TAG : Re.regex :=
  Re.Alt
    (Re.Cat (Re.Lit (b "\"))
       (Re.Cat (Re.Cls (fun c => is_char "i" c || is_char "b" c || is_char "u" c
                                 || is_char "s" c || is_char "p" c))
               (Re.Cls is_digit)))
    (Re.Cat (Re.Lit (b "\r"))
       (Re.Star (fun c => is_lower c || is_upper c || is_char "_" c
                          || is_digit c || is_char " " c))).

(** The body of the loop of [apply_overrides]: the effect of one tag on
    the style [s] accumulated so far. *)
Definition apply_tag (style : SSAStyle) (styles : dict SSAStyle)
           (s : SSAStyle) (tag : text) : SSAStyle :=
  if text_eqb tag (b "\r") then
    style
  else if startswith tag (b "\r") then
    let name := skipn 2 tag in
    match dict_get styles (Bytes name) with
    | Some named => named
    | None => s
    end
  else
    if contains tag (b "i") then set_italic s (contains tag (b "1"))
    else if contains tag (b "b") then set_bold s (contains tag (b "1"))
    else if contains tag (b "u") then set_underline s (contains tag (b "1"))
    else if contains tag (b "s") then set_strikeout s (contains tag (b "1"))
    else if contains tag (b "p") then
      match py_int (skipn 2 tag) with
      | None => s
      | Some scale => set_drawing s (scale >? 0)
      end
    else s.

Definition apply_overrides (style : SSAStyle) (styles : dict SSAStyle)
           (all_overrides : text) : SSAStyle :=
  fold_left (apply_tag style styles) (Re.findall TAG all_overrides) style.

Definition parse_tags (text_ : text) (style : SSAStyle) (styles : dict SSAStyle)
  : list (text * SSAStyle) :=
  let fragments := Re.split OVERRIDE_SEQUENCE text_ in
  if (length fragments =? 1)%nat then [(text_, style)]
  else
    let overrides := Re.findall OVERRIDE_SEQUENCE text_ in
    let overrides_prefix_sum :=
      map (fun i => join (firstn i overrides)) (seq 0 (length overrides + 1)) in
    let computed_styles := map (apply_overrides style styles) overrides_prefix_sum in
    combine fragments computed_styles.

Definition NOTICE : text :=
  b "Script generated by pysubs2" ++ [LF] ++ b "https://pypi.python.org/pypi/pysubs2".

(** *** Timestamps *)

(** The centisecond field of [ms_to_timestamp], from the millisecond
    remainder: Aegisub's rounding. *)
Definition centiseconds (ms : Z) : Z := ((ms + 5) - (ms + 5) mod 10) / 10.

(** Convert ms to 'H:MM:SS.cc'.  (The overflow warning is not modelled.) *)
Definition ms_to_timestamp (ms : Z) : text :=
  let ms := if ms <? 0 then 0 else ms in
  let ms := if ms >? MAX_REPRESENTABLE_TIME then MAX_REPRESENTABLE_TIME else ms in
  let '(h, m, s, ms) := Time.ms_to_times ms in
  let cs := centiseconds ms in
  format_0d 1 h ++ b ":" ++ format_0d 2 m ++ b ":" ++ format_0d 2 s
    ++ b "." ++ format_0d 2 cs.


(** *** [SubstationFormat.from_file] *)

(** [^.{,3}\[[^]]*[a-z][^]]*]]: up to three characters (a byte-order
    mark), then a bracketed heading with a lowercase letter in it. *)
Definition SECTION_HEADING : Re.regex :=
  Re.Cat Re.Bos
  (Re.Cat (Re.Rep (not_char LF) 0 (Some 3%nat))
  (Re.Cat (Re.Lit (b "["))
  (Re.Cat (Re.Star (not_char "]"))
  (Re.Cat (Re.Cls is_lower)
  (Re.Cat (Re.Star (not_char "]"))
          (Re.Lit (b "]"))))))).

(** [(fontname|filename):\s+(?P<name>\S+)] *)
Definition ATTACHMENT_FILE_HEADING : Re.regex :=
  Re.Cat (Re.Grp (Re.Alt (Re.Lit (b "fontname")) (Re.Lit (b "filename"))))
  (Re.Cat (Re.Lit (b ":"))
  (Re.Cat (Re.Plus is_space)
          (Re.Grp (Re.Plus (fun c => negb (is_space c)))))).

Definition field_in (f : string) (names : list string) : bool :=
  existsb (String.eqb f) names.

(** The coercion of one raw field [v] by its field name [f]. *)
Definition string_to_field (E : Env) (format_ : format) (f : string) (v : text)
  : result pyval :=
  if field_in f ["start"; "end"]%string then
    let v := strip v in
    let '(v, sign) :=
      if startswith v (b "-") then (skipn 1 v, -1) else (v, 1) in
    match
      match Re.re_match Time.TIMESTAMP v with
      | Some m => Some m
      | None => Re.re_match Time.TIMESTAMP_SHORT v
      end
    with
    | None => Raise ValueError
    | Some (groups, _) =>
      match Time.timestamp_to_ms groups with
      | Some ms => Ok (VInt (sign * ms))
      | None => Raise ValueError
      end
    end
  else if contains (b f) (b "color") then
    c <- rgba_to_color (strip v) ;; Ok (VColor c)
  else if field_in f ["bold"; "underline"; "italic"; "strikeout"]%string then
    Ok (VBool (text_eqb v (b "-1")))
  else if field_in f ["borderstyle"; "encoding"; "marginl"; "marginr";
                      "marginv"; "layer"; "alphalevel"]%string then
    match py_int v with
    | Some n => Ok (VInt n)
    | None => Raise ValueError
    end
  else if field_in f ["fontsize"; "scalex"; "scaley"; "spacing"; "angle";
                      "outline"; "shadow"]%string then
    match py_float E v with
    | Some x => Ok (VFloat x)
    | None => Raise ValueError
    end
  else if String.eqb f "marked" then
    Ok (VBool (endswith v (b "1")))
  else if String.eqb f "alignment" then
    match
      match py_int v with
      | Some n =>
        match format_ with
        | ASS => Alignment_new E n
        | SSA => from_ssa_alignment E n
        end
      | None => None
      end
    with
    | Some al => Ok (VAlignment al)
    | None => Ok (VAlignment (BOTTOM_CENTER E))
    end
  else if String.eqb f "fontname" then
    Ok (VBytes (strip v))
  else
    Ok (VBytes v).

(** A keyword argument [f=v] of a constructor, seen from the attribute
    [x]: the new value when [f] names [x] and [v] has its type, the old
    one otherwise. *)
Definition pick_str (f : string) (v : pyval) (x : string) (old : pystr) : pystr :=
  if String.eqb f x then
    match v with VStr t => Str t | VBytes t => Bytes t | _ => old end
  else old.
Definition pick_float (f : string) (v : pyval) (x : string) (old : pyfloat) : pyfloat :=
  if String.eqb f x then match v with VFloat y => y | _ => old end else old.
Definition pick_color (f : string) (v : pyval) (x : string) (old : Color.t) : Color.t :=
  if String.eqb f x then match v with VColor y => y | _ => old end else old.
Definition pick_bool (f : string) (v : pyval) (x : string) (old : bool) : bool :=
  if String.eqb f x then match v with VBool y => y | _ => old end else old.
Definition pick_int (f : string) (v : pyval) (x : string) (old : Z) : Z :=
  if String.eqb f x then match v with VInt y => y | _ => old end else old.
Definition pick_alignment (f : string) (v : pyval) (x : string) (old : Alignment)
  : Alignment :=
  if String.eqb f x then match v with VAlignment y => y | _ => old end else old.

(** Keyword arguments of [SSAStyle(...)], one attribute at a time. *)
Definition style_setattr (f : string) (v : pyval) (s : SSAStyle) : SSAStyle :=
  mkStyle
    (pick_str f v "fontname" (fontname s))
    (pick_float f v "fontsize" (fontsize s))
    (pick_color f v "primarycolor" (primarycolor s))
    (pick_color f v "secondarycolor" (secondarycolor s))
    (pick_color f v "tertiarycolor" (tertiarycolor s))
    (pick_color f v "outlinecolor" (outlinecolor s))
    (pick_color f v "backcolor" (backcolor s))
    (pick_bool f v "bold" (bold s))
    (pick_bool f v "italic" (italic s))
    (pick_bool f v "underline" (underline s))
    (pick_bool f v "strikeout" (strikeout s))
    (pick_float f v "scalex" (scalex s))
    (pick_float f v "scaley" (scaley s))
    (pick_float f v "spacing" (spacing s))
    (pick_float f v "angle" (angle s))
    (pick_int f v "borderstyle" (borderstyle s))
    (pick_float f v "outline" (outline s))
    (pick_float f v "shadow" (shadow s))
    (pick_alignment f v "alignment" (alignment s))
    (pick_int f v "marginl" (marginl s))
    (pick_int f v "marginr" (marginr s))
    (pick_int f v "marginv" (marginv s))
    (pick_int f v "alphalevel" (alphalevel s))
    (pick_int f v "encoding" (encoding s))
    (pick_bool f v "drawing" (drawing s)).

(** Keyword arguments of [SSAEvent(...)], one attribute at a time. *)
Definition event_setattr (f : string) (v : pyval) (e : SSAEvent) : SSAEvent :=
  mkEvent
    (pick_int f v "start" (ev_start e))
    (pick_int f v "end" (ev_end e))
    (pick_str f v "text" (ev_text e))
    (pick_bool f v "marked" (ev_marked e))
    (pick_int f v "layer" (ev_layer e))
    (pick_str f v "style" (ev_style e))
    (pick_str f v "name" (ev_name e))
    (pick_int f v "marginl" (ev_marginl e))
    (pick_int f v "marginr" (ev_marginr e))
    (pick_int f v "marginv" (ev_marginv e))
    (pick_str f v "effect" (ev_effect e))
    (pick_str f v "type" (ev_type e)).

(** [{f: string_to_field(f, v) for f, v in zip(fields, raw_fields)}]: the
    coerced fields in order, or the first exception. *)
Fixpoint field_dict (E : Env) (format_ : format) (fields : list string)
         (raw_fields : list text) : result (list (string * pyval)) :=
  match fields, raw_fields with
  | f :: fields', v :: raw' =>
    x <- string_to_field E format_ f v ;;
    rest <- field_dict E format_ fields' raw' ;;
    Ok ((f, x) :: rest)
  | _, _ => Ok []
  end.

Definition set_info (subs : SSAFile) (d : dict pystr) : SSAFile :=
  mkFile d (aegisub_project subs) (styles subs) (fonts_opaque subs)
         (graphics_opaque subs) (events subs).
Definition set_aegisub_project (subs : SSAFile) (d : dict pystr) : SSAFile :=
  mkFile (info subs) d (styles subs) (fonts_opaque subs)
         (graphics_opaque subs) (events subs).
Definition set_styles (subs : SSAFile) (d : dict SSAStyle) : SSAFile :=
  mkFile (info subs) (aegisub_project subs) d (fonts_opaque subs)
         (graphics_opaque subs) (events subs).
Definition set_fonts_opaque (subs : SSAFile) (d : dict (list pystr)) : SSAFile :=
  mkFile (info subs) (aegisub_project subs) (styles subs) d
         (graphics_opaque subs) (events subs).
Definition set_graphics_opaque (subs : SSAFile) (d : dict (list pystr)) : SSAFile :=
  mkFile (info subs) (aegisub_project subs) (styles subs) (fonts_opaque subs)
         d (events subs).
Definition set_events (subs : SSAFile) (l : list SSAEvent) : SSAFile :=
  mkFile (info subs) (aegisub_project subs) (styles subs) (fonts_opaque subs)
         (graphics_opaque subs) l.

(** The local variables of [from_file] together with the document. *)
Record state : Type := mkState {
  subs : SSAFile;
  inside_info_section : bool;
  inside_aegisub_section : bool;
  inside_font_section : bool;
  inside_graphic_section : bool;
  current_attachment_name : option text;
  current_attachment_lines_buffer : list text;
  current_attachment_is_font : option bool
}.

Definition with_subs (st : state) (d : SSAFile) : state :=
  mkState d (inside_info_section st) (inside_aegisub_section st)
    (inside_font_section st) (inside_graphic_section st)
    (current_attachment_name st) (current_attachment_lines_buffer st)
    (current_attachment_is_font st).

(** Truth value of [current_attachment_name]: [None] and [b""] are false. *)
Definition name_set (n : option text) : bool :=
  match n with
  | Some (_ :: _) => true
  | _ => false
  end.

(** One iteration of the loop over the lines of [fp]. *)
Definition step (E : Env) (format_ : format) (st : state) (line : text)
  : result state :=
  let line := strip line in
  if Re.found (Re.re_match SECTION_HEADING line) then
    Ok (mkState (subs st)
          (contains line (b "Info")) (contains line (b "Aegisub"))
          (contains line (b "Fonts")) (contains line (b "Graphics"))
          (current_attachment_name st) (current_attachment_lines_buffer st)
          (current_attachment_is_font st))
  else if inside_info_section st || inside_aegisub_section st then
    if startswith line (b ";") then Ok st
    else
      match split_char ":" (Some 1%nat) line with
      | [k; v] =>
        if inside_info_section st then
          Ok (with_subs st (set_info (subs st)
                (dict_set (info (subs st)) (Bytes k) (Bytes (strip v)))))
        else if inside_aegisub_section st then
          Ok (with_subs st (set_aegisub_project (subs st)
                (dict_set (aegisub_project (subs st)) (Bytes k) (Bytes (strip v)))))
        else Ok st
      | _ => Ok st
      end
  else if inside_font_section st || inside_graphic_section st then
    let m := Re.re_match ATTACHMENT_FILE_HEADING line in
    let is_font := Some (inside_font_section st) in
    let flush :=
      name_set (current_attachment_name st)
      && (Re.found m || match line with [] => true | _ => false end) in
    st1 <-
      (if flush then
         let attachment_data := map Bytes (current_attachment_lines_buffer st) in
         let name := match current_attachment_name st with
                     | Some n => Bytes n
                     | None => Bytes []
                     end in
         d <-
           (if inside_font_section st then
              Ok (set_fonts_opaque (subs st)
                    (dict_set (fonts_opaque (subs st)) name attachment_data))
            else if inside_graphic_section st then
              Ok (set_graphics_opaque (subs st)
                    (dict_set (graphics_opaque (subs st)) name attachment_data))
            else Raise NotImplementedError) ;;
         Ok (mkState d (inside_info_section st) (inside_aegisub_section st)
               (inside_font_section st) (inside_graphic_section st)
               None [] is_font)
       else
         Ok (mkState (subs st) (inside_info_section st) (inside_aegisub_section st)
               (inside_font_section st) (inside_graphic_section st)
               (current_attachment_name st) (current_attachment_lines_buffer st)
               is_font)) ;;
    match m with
    | Some (groups, _) =>
      Ok (mkState (subs st1) (inside_info_section st1) (inside_aegisub_section st1)
            (inside_font_section st1) (inside_graphic_section st1)
            (Some (nth 1 groups [])) (current_attachment_lines_buffer st1)
            (current_attachment_is_font st1))
    | None =>
      match line with
      | [] => Ok st1
      | _ :: _ =>
        Ok (mkState (subs st1) (inside_info_section st1) (inside_aegisub_section st1)
              (inside_font_section st1) (inside_graphic_section st1)
              (current_attachment_name st1)
              (current_attachment_lines_buffer st1 ++ [line])
              (current_attachment_is_font st1))
      end
    end
  else if startswith line (b "Style:") then
    let rest := nth 1 (split_char ":" (Some 1%nat) line) [] in
    let buf := split_char "," None (strip rest) in
    let name := hd [] buf in
    let raw_fields := tl buf in
    fd <- field_dict E format_ (STYLE_FIELDS format_) raw_fields ;;
    let sty := fold_left (fun s fv => style_setattr (fst fv) (snd fv) s) fd
                         (SSAStyle_new E) in
    Ok (with_subs st (set_styles (subs st)
          (dict_set (styles (subs st)) (Bytes name) sty)))
  else if startswith line (b "Dialogue:") || startswith line (b "Comment:") then
    let parts := split_char ":" (Some 1%nat) line in
    let ev_type := hd [] parts in
    let rest := nth 1 parts [] in
    let raw_fields :=
      split_char "," (Some (length (EVENT_FIELDS format_) - 1)%nat) (strip rest) in
    fd <- field_dict E format_ (EVENT_FIELDS format_) raw_fields ;;
    let fd := fd ++ [("type"%string, VBytes ev_type)] in
    let ev := fold_left (fun e fv => event_setattr (fst fv) (snd fv) e) fd
                        (SSAEvent_new E) in
    Ok (with_subs st (set_events (subs st) (events (subs st) ++ [ev])))
  else Ok st.

(** The loop: the state after the last line, or the state at the line
    that raised together with the exception. *)
Fixpoint run (E : Env) (format_ : format) (st : state) (fp : list text)
  : state * option exn :=
  match fp with
  | [] => (st, None)
  | line :: fp' =>
    match step E format_ st line with
    | Ok st' => run E format_ st' fp'
    | Raise e => (st, Some e)
    end
  end.

(** The document as [from_file] leaves it, and the exception it raised,
    if any. *)
Definition from_file (E : Env) (subs0 : SSAFile) (fp : list text) (format_ : format)
  : SSAFile * option exn :=
  let cleared := mkFile [] [] [] [] [] (events subs0) in
  let st0 := mkState cleared false false false false None [] None in
  match run E format_ st0 fp with
  | (st, Some e) => (subs st, Some e)
  | (st, None) =>
    if name_set (current_attachment_name st) then
      let attachment_data := map Bytes (current_attachment_lines_buffer st) in
      let name := match current_attachment_name st with
                  | Some n => Bytes n
                  | None => Bytes []
                  end in
      match current_attachment_is_font st with
      | Some true =>
        (set_fonts_opaque (subs st)
           (dict_set (fonts_opaque (subs st)) name attachment_data), None)
      | _ =>
        (set_graphics_opaque (subs st)
           (dict_set (graphics_opaque (subs st)) name attachment_data), None)
      end
    else (subs st, None)
  end.


(** *** [SubstationFormat.to_file] *)

(** [getattr(sty, f)] and [getattr(ev, f)]. *)
Definition style_getattr (f : string) (s : SSAStyle) : result pyval :=
  if String.eqb f "fontname" then Ok (val_of_pystr (fontname s))
  else if String.eqb f "fontsize" then Ok (VFloat (fontsize s))
  else if String.eqb f "primarycolor" then Ok (VColor (primarycolor s))
  else if String.eqb f "secondarycolor" then Ok (VColor (secondarycolor s))
  else if String.eqb f "tertiarycolor" then Ok (VColor (tertiarycolor s))
  else if String.eqb f "outlinecolor" then Ok (VColor (outlinecolor s))
  else if String.eqb f "backcolor" then Ok (VColor (backcolor s))
  else if String.eqb f "bold" then Ok (VBool (bold s))
  else if String.eqb f "italic" then Ok (VBool (italic s))
  else if String.eqb f "underline" then Ok (VBool (underline s))
  else if String.eqb f "strikeout" then Ok (VBool (strikeout s))
  else if String.eqb f "scalex" then Ok (VFloat (scalex s))
  else if String.eqb f "scaley" then Ok (VFloat (scaley s))
  else if String.eqb f "spacing" then Ok (VFloat (spacing s))
  else if String.eqb f "angle" then Ok (VFloat (angle s))
  else if String.eqb f "borderstyle" then Ok (VInt (borderstyle s))
  else if String.eqb f "outline" then Ok (VFloat (outline s))
  else if String.eqb f "shadow" then Ok (VFloat (shadow s))
  else if String.eqb f "alignment" then Ok (VAlignment (alignment s))
  else if String.eqb f "marginl" then Ok (VInt (marginl s))
  else if String.eqb f "marginr" then Ok (VInt (marginr s))
  else if String.eqb f "marginv" then Ok (VInt (marginv s))
  else if String.eqb f "alphalevel" then Ok (VInt (alphalevel s))
  else if String.eqb f "encoding" then Ok (VInt (encoding s))
  else if String.eqb f "drawing" then Ok (VBool (drawing s))
  else Raise AttributeError.

Definition event_getattr (f : string) (e : SSAEvent) : result pyval :=
  if String.eqb f "start" then Ok (VInt (ev_start e))
  else if String.eqb f "end" then Ok (VInt (ev_end e))
  else if String.eqb f "text" then Ok (val_of_pystr (ev_text e))
  else if String.eqb f "marked" then Ok (VBool (ev_marked e))
  else if String.eqb f "layer" then Ok (VInt (ev_layer e))
  else if String.eqb f "style" then Ok (val_of_pystr (ev_style e))
  else if String.eqb f "name" then Ok (val_of_pystr (ev_name e))
  else if String.eqb f "marginl" then Ok (VInt (ev_marginl e))
  else if String.eqb f "marginr" then Ok (VInt (ev_marginr e))
  else if String.eqb f "marginv" then Ok (VInt (ev_marginv e))
  else if String.eqb f "effect" then Ok (val_of_pystr (ev_effect e))
  else if String.eqb f "type" then Ok (val_of_pystr (ev_type e))
  else Raise AttributeError.

(** [str.splitlines(False)] on 8-bit characters. *)
Definition is_linebreak (c : ascii) : bool :=
  between "010" "013" c || between "028" "030" c || is_char "133" c.

Fixpoint splitlines (s : text) : list text :=
  match s with
  | [] => []
  | c :: s' =>
    if is_linebreak c then
      [] :: match s' with
            | c' :: s'' =>
              if Ascii.eqb c CR && Ascii.eqb c' LF then splitlines s''
              else splitlines s'
            | [] => []
            end
    else
      match s' with
      | [] => [[c]]
      | c' :: _ =>
        if is_linebreak c' then [c] :: tl (splitlines s')
        else
          match splitlines s' with
          | l :: ls => (c :: l) :: ls
          | [] => [[c]]
          end
      end
  end.

(** What the serializer does with one attribute value.  The field name
    [f] comes from [STYLE_FIELDS] or [EVENT_FIELDS] and is a [str]; the
    names it is compared with are [bytes]. *)
Definition field_to_string (E : Env) (format_ : format) (f : string) (v : pyval)
  : result pyval :=
  if existsb (pystr_eqb (Str (b f))) [Bytes (b "start"); Bytes (b "end")] then
    match v with
    | VInt ms => Ok (VStr (ms_to_timestamp ms))
    | _ => Raise TypeError
    end
  else if pystr_eqb (Str (b f)) (Bytes (b "marked")) then
    match v with
    | VBool x => Ok (VStr (b "Marked=" ++ format_0d 0 (if x then 1 else 0)))
    | VInt n => Ok (VStr (b "Marked=" ++ format_0d 0 n))
    | _ => Raise ValueError
    end
  else if pystr_eqb (Str (b f)) (Bytes (b "alignment")) then
    match
      match v with
      | VAlignment al => Some al
      | VInt n => Alignment_new E n
      | VBool x => Alignment_new E (if x then 1 else 0)
      | _ => None
      end
    with
    | None => Raise ValueError
    | Some (Align n as al) =>
      match format_ with
      | SSA => Ok (VStr (py_str E (VInt (to_ssa_alignment E al))))
      | ASS => Ok (VStr (py_str E (VInt n)))
      end
    end
  else
    match v with
    | VBool x => Ok (VBytes (if x then b "-1" else b "0"))
    | VStr _ | VInt _ | VFloat _ => Ok (VStr (py_str E v))
    | VAlignment _ =>
      if Alignment_is_Number E then Ok (VStr (py_str E v)) else Raise TypeError
    | VColor c =>
      match format_ with
      | ASS => Ok (VStr (color_to_ass_rgba c))
      | SSA => Ok (VStr (color_to_ssa_rgb c))
      end
    | VBytes _ | VNone => Raise TypeError
    end.

(** [[field_to_string(f, getattr(line, f), line) for f in fields]] *)
Fixpoint fields_to_strings (E : Env) (format_ : format) {L : Type}
         (get : string -> L -> result pyval) (line : L) (fields : list string)
  : result (list pyval) :=
  match fields with
  | [] => Ok []
  | f :: fields' =>
    v <- get f line ;;
    x <- field_to_string E format_ f v ;;
    rest <- fields_to_strings E format_ get line fields' ;;
    Ok (x :: rest)
  end.

Fixpoint text_ltb (x y : text) : bool :=
  match x, y with
  | _, [] => false
  | [], _ :: _ => true
  | c :: x', d :: y' =>
    if (code c <? code d)%N then true
    else if (code d <? code c)%N then false
    else text_ltb x' y'
  end.

Fixpoint insert_item {V : Type} (x : pystr * V) (l : list (pystr * V))
  : list (pystr * V) :=
  match l with
  | [] => [x]
  | y :: l' =>
    if text_ltb (pystr_chars (fst x)) (pystr_chars (fst y)) then x :: l
    else y :: insert_item x l'
  end.

Definition is_Str (x : pystr) : bool :=
  match x with Str _ => true | Bytes _ => false end.

(** [sorted(d.items())]: by key, the keys of a dictionary being distinct;
    ordering a [str] against a [bytes] key is a [TypeError]. *)
Definition sorted_items {V : Type} (d : dict V) : result (list (pystr * V)) :=
  if existsb (fun kv => is_Str (fst kv)) d
     && existsb (fun kv => negb (is_Str (fst kv))) d
  then Raise TypeError
  else Ok (fold_right insert_item [] d).

Definition print_items (d : dict pystr) : stmt unit :=
  for_ d (fun kv => emit (Print [val_of_pystr (fst kv); val_of_pystr (snd kv)]
                                (b ": b") [LF])).

Definition print_attachments (E : Env) (heading label : text)
           (d : dict (list pystr)) : stmt unit :=
  match d with
  | [] => ret tt
  | _ :: _ =>
    emit (print [VBytes heading]) ;;;
    items <~ lift (sorted_items d) ;;
    for_ items
      (fun kv =>
         emit (print [VStr (label ++ py_str E (val_of_pystr (fst kv)))]) ;;;
         for_ (snd kv) (fun line => emit (print [val_of_pystr line])) ;;;
         emit (print []))
  end.

(** [to_file], as a statement on the document and the sink [fp]. *)
Definition to_file (E : Env) (format_ : format) (header_notice : text) : stmt unit :=
  emit (print [VBytes (b "[Script Info]")]) ;;;
  for_ (splitlines header_notice)
       (fun line => emit (print [VBytes (b ";"); VStr line])) ;;;

  info_setitem (Str (b "ScriptType"))
    (Bytes (match format_ with ASS => b "v4.00+" | SSA => b "v4.00" end)) ;;;
  (subs <~ read_subs ;; print_items (info subs)) ;;;

  (subs <~ read_subs ;;
   match aegisub_project subs with
   | [] => ret tt
   | _ :: _ =>
     emit (print [VBytes (LF :: b "[Aegisub Project Garbage]")]) ;;;
     print_items (aegisub_project subs)
   end) ;;;

  emit (print [VBytes (match format_ with
                       | ASS => LF :: b "[V4+ Styles]"
                       | SSA => LF :: b "[V4 Styles]"
                       end)]) ;;;
  emit (print [VBytes (STYLE_FORMAT_LINE format_)]) ;;;
  (subs <~ read_subs ;;
   for_ (styles subs)
     (fun kv =>
        fields <~ lift (fields_to_strings E format_ style_getattr (snd kv)
                                          (STYLE_FIELDS format_)) ;;
        emit (Print (VStr (b "Style: " ++ py_str E (val_of_pystr (fst kv))) :: fields)
                    (b ",") [LF]))) ;;;

  (subs <~ read_subs ;;
   print_attachments E (LF :: b "[Fonts]") (b "fontname: ") (fonts_opaque subs)) ;;;

  (subs <~ read_subs ;;
   print_attachments E (LF :: b "[Graphics]") (b "filename: ")
                     (graphics_opaque subs)) ;;;

  emit (print [VBytes (LF :: b "[Events]")]) ;;;
  emit (print [VBytes (EVENT_FORMAT_LINE format_)]) ;;;
  (subs <~ read_subs ;;
   for_ (events subs)
     (fun ev =>
        fields <~ lift (fields_to_strings E format_ event_getattr ev
                                          (EVENT_FIELDS format_)) ;;
        emit (Print [val_of_pystr (ev_type ev)] (b " ") (b ": b")) ;;;
        emit (Print fields (b ",") [LF]))).
End Substation.

(** ** pysubs2/subrip.py *)
Module Subrip.

(** Largest timestamp allowed in SubRip, ie. 99:59:59,999. *)
Definition MAX_REPRESENTABLE_TIME : Z := Time.make_time 100 0 0 0 - 1.

Definition TIMESTAMP : Re.regex := Time.TIMESTAMP.

(** Convert ms to 'HH:MM:SS,mmm'.  (The overflow warning is not modelled.) *)
Definition ms_to_timestamp (ms : Z) : text :=
  let ms := if ms <? 0 then 0 else ms in
  let ms := if ms >? MAX_REPRESENTABLE_TIME then MAX_REPRESENTABLE_TIME else ms in
  let '(h, m, s, ms) := Time.ms_to_times ms in
  format_0d 2 h ++ b ":" ++ format_0d 2 m ++ b ":" ++ format_0d 2 s
    ++ b "," ++ format_0d 3 ms.

Definition timestamp_to_ms (groups : list text) : option Z :=
  Time.timestamp_to_ms groups.

(** *** [SubripFormat.from_file] *)

Record read_options : Type := mkReadOptions {
  keep_html_tags : bool;
  keep_unknown_html_tags : bool;
  keep_newlines : bool;
  keep_original_newlines : bool
}.

Definition default_read_options : read_options :=
  mkReadOptions false false false false.

(** [\s*$] *)
Definition BLANK_LINE : Re.regex := Re.Cat (Re.Star is_space) Re.Eos.

(** [\s*\d+\s*$] *)
Definition NUMBER_LINE : Re.regex :=
  Re.Cat (Re.Star is_space)
  (Re.Cat (Re.Plus is_digit) (Re.Cat (Re.Star is_space) Re.Eos)).

(** [\n+ *\d+ *$] *)
Definition NEXT_NUMBER : Re.regex :=
  Re.Cat (Re.Plus (is_char LF))
  (Re.Cat (Re.Star (is_char " "))
  (Re.Cat (Re.Plus is_digit) (Re.Cat (Re.Star (is_char " ")) Re.Eos))).

(** [< *x *>] *)
Definition open_tag (x : ascii) : Re.regex :=
  Re.Cat (Re.Lit (b "<"))
  (Re.Cat (Re.Star (is_char " "))
  (Re.Cat (Re.Lit [x]) (Re.Cat (Re.Star (is_char " ")) (Re.Lit (b ">"))))).

(** [< */ *x *>] *)
Definition close_tag (x : ascii) : Re.regex :=
  Re.Cat (Re.Lit (b "<"))
  (Re.Cat (Re.Star (is_char " "))
  (Re.Cat (Re.Lit (b "/"))
  (Re.Cat (Re.Star (is_char " "))
  (Re.Cat (Re.Lit [x]) (Re.Cat (Re.Star (is_char " ")) (Re.Lit (b ">"))))))).

(** [< */? *[a-zA-Z][^>]*>] *)
Definition ANY_TAG : Re.regex :=
  Re.Cat (Re.Lit (b "<"))
  (Re.Cat (Re.Star (is_char " "))
  (Re.Cat (Re.Opt (is_char "/"))
  (Re.Cat (Re.Star (is_char " "))
  (Re.Cat (Re.Cls is_alpha)
  (Re.Cat (Re.Star (not_char ">")) (Re.Lit (b ">"))))))).

(** The text of a cue from the lines that follow its timestamp line. *)
Definition from_file_prepare_text (o : read_options) (lines : list text) : text :=
  (* Handle the "happy" empty subtitle case, which is timestamp line
     followed by blank line(s) followed by number line and timestamp line
     of the next subtitle. *)
  if (2 <=? length lines)%nat
     && forallb (fun line => Re.found (Re.re_match BLANK_LINE line)) (removelast lines)
     && Re.found (Re.re_match NUMBER_LINE (last lines []))
  then []
  else
    (* Handle the general case. *)
    let s := strip (join lines) in
    let s :=
      if negb (keep_original_newlines o) then
        Re.sub (Re.Lit [CR]) [LF] (Re.sub (Re.Lit [CR; LF]) [LF] s)
      else s in
    let s := Re.sub NEXT_NUMBER [] s in
    let s :=
      if negb (keep_html_tags o) then
        let s := Re.sub (open_tag "i") (b "{\i1}") s in
        let s := Re.sub (close_tag "i") (b "{\i0}") s in
        let s := Re.sub (open_tag "s") (b "{\s1}") s in
        let s := Re.sub (close_tag "s") (b "{\s0}") s in
        let s := Re.sub (open_tag "u") (b "{\u1}") s in
        let s := Re.sub (close_tag "u") (b "{\u0}") s in
        let s := Re.sub (open_tag "b") (b "{\b1}") s in
        Re.sub (close_tag "b") (b "{\b0}") s
      else s in
    let s :=
      if negb (keep_html_tags o || keep_unknown_html_tags o) then
        Re.sub ANY_TAG [] s
      else s in
    if negb (keep_newlines o) then Re.sub (Re.Lit [LF]) (b "\N") s else s.

(** [following_lines[-1].append(line)] *)
Definition append_to_last (following_lines : list (list text)) (line : text)
  : list (list text) :=
  removelast following_lines ++ [last following_lines [] ++ [line]].

(** The loop over the lines of [fp]: the timestamps of the cues and the
    lines that follow each. *)
Fixpoint read_cues (fp : list text) (timestamps : list (Z * Z))
         (following_lines : list (list text))
  : result (list (Z * Z) * list (list text)) :=
  match fp with
  | [] => Ok (timestamps, following_lines)
  | line :: fp' =>
    let stamps := Re.findall_groups TIMESTAMP line in
    if (length stamps =? 2)%nat then
      match map timestamp_to_ms stamps with
      | [Some start; Some end_] =>
        read_cues fp' (timestamps ++ [(start, end_)]) (following_lines ++ [[]])
      | _ => Raise ValueError
      end
    else
      match timestamps with
      | _ :: _ => read_cues fp' timestamps (append_to_last following_lines line)
      | [] => read_cues fp' timestamps following_lines
      end
  end.

(** [SSAEvent(start=start, end=end, text=text)] *)
Definition new_event (E : Env) (start end_ : Z) (text_ : text) : SSAEvent :=
  let d := SSAEvent_new E in
  mkEvent start end_ (Bytes text_) (ev_marked d) (ev_layer d) (ev_style d)
    (ev_name d) (ev_marginl d) (ev_marginr d) (ev_marginv d) (ev_effect d)
    (ev_type d).

Definition from_file (E : Env) (subs : SSAFile) (fp : list text) (o : read_options)
  : result SSAFile :=
  cues <- read_cues fp [] [] ;;
  Ok (mkFile (info subs) (aegisub_project subs) (styles subs) (fonts_opaque subs)
        (graphics_opaque subs)
        (map (fun c => new_event E (fst (fst c)) (snd (fst c)) (from_file_prepare_text o (snd c)))
             (combine (fst cues) (snd cues)))).

(** *** [SubripFormat.to_file] *)

Definition _get_visible_lines (E : Env) (subs : SSAFile) : list SSAEvent :=
  filter (fun line => negb (is_comment E line)) (events subs).

(** The loop over the fragments in [prepare_text] of [to_file]: the fragments to
    join, or [ContentNotUsable] at the first drawing. *)
Fixpoint body_of (apply_styles : bool) (fragments : list (text * SSAStyle))
  : result (list text) :=
  match fragments with
  | [] => Ok []
  | (fragment, sty) :: rest =>
    let fragment :=
      if apply_styles then
        let fragment := if italic sty then b "<i>" ++ fragment ++ b "</i>" else fragment in
        let fragment := if underline sty then b "<u>" ++ fragment ++ b "</u>" else fragment in
        if strikeout sty then b "<s>" ++ fragment ++ b "</s>" else fragment
      else fragment in
    if drawing sty then Raise ContentNotUsable
    else
      body <- body_of apply_styles rest ;;
      Ok (fragment :: body)
  end.

Definition to_file_prepare_text (subs : SSAFile) (apply_styles keep_ssa_tags : bool)
           (text_ : pystr) (style : SSAStyle) : result text :=
  match text_ with
  | Str _ => Raise TypeError
  | Bytes text_ =>
    let text_ := replace (b "\h") (b " ") text_ in
    let text_ := replace (b "\n") [LF] text_ in
    let text_ := replace (b "\N") [LF] text_ in
    body <-
      (if keep_ssa_tags then Ok [text_]
       else body_of apply_styles (Substation.parse_tags text_ style (styles subs))) ;;
    Ok (Re.sub (Re.Plus (is_char LF)) [LF] (strip (join body)))
  end.

(** The [print] calls for one cue. *)
Definition cue (lineno : Z) (start end_ : text) (text_ : text) : list print_call :=
  [print [VInt lineno];
   print [VStr start; VStr (b "-->"); VStr end_];
   Print [VBytes text_] (b " ") [LF; LF]].

(** The loop over the visible lines, from the counter [lineno] on. *)
Fixpoint write_lines (E : Env) (subs : SSAFile) (apply_styles keep_ssa_tags : bool)
         (lineno : Z) (visible_lines : list SSAEvent)
  : list print_call * option exn :=
  match visible_lines with
  | [] => ([], None)
  | line :: rest =>
    let start := ms_to_timestamp (ev_start line) in
    let end_ := ms_to_timestamp (ev_end line) in
    match to_file_prepare_text subs apply_styles keep_ssa_tags (ev_text line)
            (dict_get_default (styles subs) (ev_style line) (DEFAULT_STYLE E)) with
    | Raise ContentNotUsable =>
      write_lines E subs apply_styles keep_ssa_tags lineno rest
    | Raise e => ([], Some e)
    | Ok text_ =>
      let '(out, r) :=
        write_lines E subs apply_styles keep_ssa_tags (lineno + 1) rest in
      (cue lineno start end_ text_ ++ out, r)
    end
  end.

(** The [print] calls [to_file] makes on [fp], and the exception that
    stopped it, if any.  [apply_styles] defaults to true, [keep_ssa_tags]
    to false. *)
Definition to_file (E : Env) (subs : SSAFile) (apply_styles keep_ssa_tags : bool)
  : list print_call * option exn :=
  write_lines E subs apply_styles keep_ssa_tags 1 (_get_visible_lines E subs).

End Subrip.

(** ** Sample values

    A plain style, a plain event and an environment, for running the
    codecs on concrete documents. *)

Definition plain_style : SSAStyle :=
  mkStyle (Str (b "Arial")) (Float 0)
    (Color.mk 255 255 255 0) (Color.mk 255 0 0 0) (Color.mk 0 0 0 0)
    (Color.mk 0 0 0 0) (Color.mk 0 0 0 0)
    false false false false
    (Float 0) (Float 0) (Float 0) (Float 0) 1 (Float 0) (Float 0)
    (Align 2) 10 10 10 0 1 false.

Definition plain_event : SSAEvent :=
  mkEvent 0 10000 (Bytes []) false 0 (Str (b "Default")) (Str []) 0 0 0
          (Str []) (Str (b "Dialogue")).

Definition sample_env : Env :=
  mkEnv (fun _ => []) (fun _ => Some (Float 0))
        (fun i => if (1 <=? i) && (i <=? 9) then Some (Align i) else None)
        (Align 2) (fun _ => None) (fun _ => 0)
        true
        (fun e => pystr_eqb (ev_type e) (Str (b "Comment"))
                  || pystr_eqb (ev_type e) (Bytes (b "Comment")))
        plain_event plain_style plain_style.

Definition empty_file : SSAFile := mkFile [] [] [] [] [] [].

(** An event like [plain_event] with the given byte-string text. *)
Definition event_with_text (t : text) : SSAEvent :=
  mkEvent 0 10000 (Bytes t) false 0 (Str (b "Default")) (Str []) 0 0 0
          (Str []) (Str (b "Dialogue")).


(** ** Notions the properties are stated with *)

(** A pattern without [^] matches the same wherever the subject starts. *)
Fixpoint no_bos (r : Re.regex) : bool :=
  match r with
  | Re.Cat r1 r2 | Re.Alt r1 r2 => no_bos r1 && no_bos r2
  | Re.Grp r1 => no_bos r1
  | Re.Bos => false
  | _ => true
  end.

(** A pattern avoids the character [x] when none of its parts can read
    [x] (and it has no [$]): its matches then stop before the next [x]. *)
Fixpoint avoids (x : ascii) (r : Re.regex) : bool :=
  match r with
  | Re.Lit t => negb (existsb (Ascii.eqb x) t)
  | Re.Cls p => negb (p x)
  | Re.Rep p _ _ => negb (p x)
  | Re.Cat r1 r2 | Re.Alt r1 r2 => avoids x r1 && avoids x r2
  | Re.Grp r1 => avoids x r1
  | Re.Bos => true
  | Re.Eos => false
  end.

Definition extend (rest : text) (gs : list text * text) : list text * text :=
  (fst gs, snd gs ++ rest).

(** The style resolved for a fragment, in the words of the spec: the
    left-to-right fold of the tags of the override sequences before it,
    from the base style. *)
Definition resolved_style (style : SSAStyle) (styles : dict SSAStyle)
           (overrides_before : list text) : SSAStyle :=
  fold_left (Substation.apply_tag style styles)
            (flat_map (Re.findall Substation.TAG) overrides_before) style.

(** The event text as [prepare_text] hands it to [parse_tags]. *)
Definition expanded (t : text) : text :=
  replace (b "\N") [LF] (replace (b "\n") [LF] (replace (b "\h") (b " ") t)).

(** The fragments of a line with their resolved styles. *)
Definition fragments_of (E : Env) (subs : SSAFile) (line : SSAEvent) (t : text)
  : list (text * SSAStyle) :=
  Substation.parse_tags (expanded t)
    (dict_get_default (styles subs) (ev_style line) (DEFAULT_STYLE E))
    (styles subs).

(** Some fragment of the line has a resolved style in drawing mode. *)
Definition has_drawing (E : Env) (subs : SSAFile) (line : SSAEvent) (t : text) : bool :=
  existsb (fun fs => drawing (snd fs)) (fragments_of E subs line t).

(** The cue numbers printed: the arguments of the calls [print(lineno)]. *)
Definition cue_numbers (out : list print_call) : list Z :=
  flat_map (fun p => match print_args p with
                     | [VInt n] => [n]
                     | _ => []
                     end) out.

(** [l] counts up from [n] in steps of one. *)
Definition consecutive_from (n : Z) (l : list Z) : Prop :=
  l = map (fun k => n + Z.of_nat k) (seq 0 (length l)).

(** Some call of the output prints a byte string that contains [frag]. *)
Definition fragment_written (frag : text) (out : list print_call) : Prop :=
  exists p t, In p out /\ In (VBytes t) (print_args p) /\ contains t frag = true.

(** A line is blank when it only holds whitespace. *)
Definition blank (line : text) : Prop := forallb is_space line = true.

(** A line is a bare integer when it holds decimal digits, at least one,
    with nothing but whitespace around them. *)
Definition bare_integer (line : text) : Prop :=
  exists ws1 ds ws2,
    line = ws1 ++ ds ++ ws2 /\ ds <> [] /\
    forallb is_space ws1 = true /\ forallb is_digit ds = true /\
    forallb is_space ws2 = true.

(** The document [d] with the events [pre] ahead of its own. *)
Definition with_earlier_events (pre : list SSAEvent) (d : SSAFile) : SSAFile :=
  Substation.set_events d (pre ++ events d).

Definition prepend (pre : list SSAEvent) (st : Substation.state) : Substation.state :=
  Substation.with_subs st (with_earlier_events pre (Substation.subs st)).

(** A statement keeps the document when it leaves it as it found it,
    whether it returns or raises. *)
Definition keeps_subs {A : Type} (m : stmt A) : Prop :=
  forall w, w_subs (snd (m w)) = w_subs w.


(** * Properties *)

(** ** Decimal digits and timestamps *)

(** A boolean check run over [0 .. N-1] covers every integer of that range. *)
Lemma Z_range_check (N : nat) (f : Z -> bool) :
  forallb (fun k => f (Z.of_nat k)) (seq 0 N) = true ->
  forall n, 0 <= n < Z.of_nat N -> f n = true.
Proof.
  intros H n Hn.
  rewrite forallb_forall in H.
  specialize (H (Z.to_nat n)).
  rewrite Z2Nat.id in H by lia.
  apply H. apply in_seq. lia.
Qed.

Lemma text_eqb_eq (x y : text) : text_eqb x y = true -> x = y.
Proof.
  unfold text_eqb. destruct (text_eq_dec x y); [trivial | discriminate].
Qed.

Lemma text_eqb_refl (x : text) : text_eqb x x = true.
Proof.
  unfold text_eqb. destruct (text_eq_dec x x); [trivial | contradiction].
Qed.

Lemma digit_char_is_digit (d : Z) :
  0 <= d < 10 -> is_digit (digit_char d) = true /\ digit_value (digit_char d) = d.
Proof.
  intros H.
  assert (C : (is_digit (digit_char d) && (digit_value (digit_char d) =? d)) = true).
  { revert d H. apply (Z_range_check 10). vm_compute. reflexivity. }
  apply andb_true_iff in C. destruct C as [C1 C2].
  split; [exact C1 | apply Z.eqb_eq; exact C2].
Qed.

Lemma format_0d_1 (n : Z) :
  0 <= n < 10 -> format_0d 1 n = [digit_char n].
Proof.
  intros H. apply text_eqb_eq. revert n H.
  apply (Z_range_check 10 (fun n => text_eqb (format_0d 1 n) [digit_char n])).
  vm_compute. reflexivity.
Qed.

Lemma format_0d_2 (n : Z) :
  0 <= n < 100 -> format_0d 2 n = [digit_char (n / 10); digit_char (n mod 10)].
Proof.
  intros H. apply text_eqb_eq. revert n H.
  apply (Z_range_check 100
           (fun n => text_eqb (format_0d 2 n)
                              [digit_char (n / 10); digit_char (n mod 10)])).
  vm_compute. reflexivity.
Qed.

Lemma format_0d_3 (n : Z) :
  0 <= n < 1000 ->
  format_0d 3 n =
  [digit_char (n / 100); digit_char (n / 10 mod 10); digit_char (n mod 10)].
Proof.
  intros H. apply text_eqb_eq. revert n H.
  apply (Z_range_check 1000
           (fun n => text_eqb (format_0d 3 n)
                       [digit_char (n / 100); digit_char (n / 10 mod 10);
                        digit_char (n mod 10)])).
  vm_compute. reflexivity.
Qed.

(** ** First matches

    When every part of a pattern matches at its first attempt, no
    backtracking happens and the parts' results chain. *)

Lemma first_Cat (r1 r2 : Re.regex) (bol : bool) (s : text) g1 s1 g2 s2 :
  hd_error (Re.matches r1 bol s) = Some (g1, s1) ->
  hd_error (Re.matches r2 (bol && (length s1 =? length s)%nat) s1) = Some (g2, s2) ->
  hd_error (Re.matches (Re.Cat r1 r2) bol s) = Some (g1 ++ g2, s2).
Proof.
  intros H1 H2. cbn [Re.matches].
  destruct (Re.matches r1 bol s) as [|[g s'] l]; [discriminate|].
  injection H1 as -> ->. cbn [flat_map].
  destruct (Re.matches r2 _ s1) as [|[g s'] l']; [discriminate|].
  injection H2 as -> ->. reflexivity.
Qed.

Lemma first_Grp (r : Re.regex) (bol : bool) (s : text) g s' :
  hd_error (Re.matches r bol s) = Some (g, s') ->
  hd_error (Re.matches (Re.Grp r) bol s) = Some (Re.matched s s' :: g, s').
Proof.
  intros H. cbn [Re.matches].
  destruct (Re.matches r bol s) as [|[g0 s0] l]; [discriminate|].
  injection H as -> ->. reflexivity.
Qed.

Lemma first_Lit (t : text) (bol : bool) (s : text) :
  startswith s t = true ->
  hd_error (Re.matches (Re.Lit t) bol s) = Some ([], skipn (length t) s).
Proof.
  intros H. cbn [Re.matches]. rewrite H. reflexivity.
Qed.

Lemma first_Cls (p : ascii -> bool) (bol : bool) (c : ascii) (s : text) :
  p c = true ->
  hd_error (Re.matches (Re.Cls p) bol (c :: s)) = Some ([], s).
Proof.
  intros H. cbn [Re.matches]. rewrite H. reflexivity.
Qed.

Lemma counts_down_head (n lo : nat) :
  (lo <= n)%nat -> hd_error (Re.counts_down n lo) = Some n.
Proof.
  intros H. destruct n; cbn [Re.counts_down].
  - replace (0 <? lo)%nat with false by (symmetry; apply Nat.ltb_ge; lia).
    reflexivity.
  - replace (S n <? lo)%nat with false by (symmetry; apply Nat.ltb_ge; lia).
    reflexivity.
Qed.

Lemma first_Rep (p : ascii -> bool) (lo : nat) (hi : option nat) (bol : bool)
      (s : text) (n : nat) :
  Re.span p hi s = n -> (lo <= n)%nat ->
  hd_error (Re.matches (Re.Rep p lo hi) bol s) = Some ([], skipn n s).
Proof.
  intros <- H. cbn [Re.matches].
  pose proof (counts_down_head _ _ H) as C.
  destruct (Re.counts_down (Re.span p hi s) lo); [discriminate|].
  injection C as ->. reflexivity.
Qed.

Lemma first_Eos_nil (bol : bool) :
  hd_error (Re.matches Re.Eos bol []) = Some ([], []).
Proof. reflexivity. Qed.

(** Decide the class tests in the goal: by a hypothesis for a character
    that is a variable, by computation for a literal one. *)
Ltac eval_class :=
  repeat
    (cbv beta iota;
     match goal with
     | H : ?t = true |- context [if ?t then _ else _] => rewrite H
     | H : ?t = false |- context [if ?t then _ else _] => rewrite H
     | |- context [if ?t then _ else _] =>
       let v := eval vm_compute in t in
       match v with
       | true => change t with true
       | false => change t with false
       end
     end).

Ltac solve_span :=
  repeat (cbn [Re.span option_map pred]; eval_class); reflexivity.

Ltac solve_first :=
  cbn [skipn length Nat.sub firstn Nat.eqb andb app b list_ascii_of_string];
  lazymatch goal with
  | |- hd_error (Re.matches (Re.Cat _ _) _ _) = _ =>
    eapply first_Cat; [solve_first | solve_first]
  | |- hd_error (Re.matches (Re.Grp _) _ _) = _ =>
    eapply first_Grp; solve_first
  | |- hd_error (Re.matches (Re.Lit _) _ _) = _ =>
    eapply first_Lit; reflexivity
  | |- hd_error (Re.matches (Re.Cls _) _ _) = _ =>
    eapply first_Cls; eval_class; vm_compute; reflexivity
  | |- hd_error (Re.matches (Re.Rep _ _ _) _ _) = _ =>
    eapply first_Rep; [solve_span | cbv; lia]
  | |- hd_error (Re.matches Re.Eos _ _) = _ =>
    apply first_Eos_nil
  end.

(** [first_match] proves [hd_error (matches r bol s) = Some x] for a
    subject whose characters are literal or classified by hypotheses. *)
Ltac first_match :=
  eapply eq_trans; [solve_first | reflexivity].

(** The long grammar reads a two-digit clock with a three-digit fraction
    whole, whatever the digits. *)
Lemma TIMESTAMP_reads_clock_3 (h1 h2 m1 m2 s1 s2 f1 f2 f3 sep : ascii) :
  is_digit h1 = true -> is_digit h2 = true ->
  is_digit m1 = true -> is_digit m2 = true ->
  is_digit s1 = true -> is_digit s2 = true ->
  is_digit f1 = true -> is_digit f2 = true -> is_digit f3 = true ->
  sep = "."%char \/ sep = ","%char ->
  Re.re_match Time.TIMESTAMP
    [h1; h2; ":"%char; m1; m2; ":"%char; s1; s2; sep; f1; f2; f3]
  = Some ([[h1; h2]; [m1; m2]; [s1; s2]; [f1; f2; f3]], []).
Proof.
  intros Hh1 Hh2 Hm1 Hm2 Hs1 Hs2 Hf1 Hf2 Hf3 Hsep.
  unfold Re.re_match, Time.TIMESTAMP.
  destruct Hsep as [-> | ->]; first_match.
Qed.

(** The same for the one-digit hour and two-digit fraction of SubStation. *)
Lemma TIMESTAMP_reads_clock_2 (h1 m1 m2 s1 s2 f1 f2 sep : ascii) :
  is_digit h1 = true ->
  is_digit m1 = true -> is_digit m2 = true ->
  is_digit s1 = true -> is_digit s2 = true ->
  is_digit f1 = true -> is_digit f2 = true ->
  sep = "."%char \/ sep = ","%char ->
  Re.re_match Time.TIMESTAMP
    [h1; ":"%char; m1; m2; ":"%char; s1; s2; sep; f1; f2]
  = Some ([[h1]; [m1; m2]; [s1; s2]; [f1; f2]], []).
Proof.
  intros Hh1 Hm1 Hm2 Hs1 Hs2 Hf1 Hf2 Hsep.
  unfold Re.re_match, Time.TIMESTAMP.
  destruct Hsep as [-> | ->]; first_match.
Qed.

Ltac digit_facts d :=
  let H := fresh "D" in
  let H1 := fresh "D" in
  let H2 := fresh "D" in
  assert (H : 0 <= d < 10) by
      (first [ lia
             | split; [ apply Z.div_pos; lia | apply Z.div_lt_upper_bound; lia ]
             | apply Z.mod_pos_bound; lia ]);
  destruct (digit_char_is_digit d H) as [H1 H2].

(** SubRip timestamps read back to the millisecond. *)
Lemma Subrip_roundtrip (ms : Z) :
  0 <= ms <= 359999999 ->
  Time.parse_timestamp (Subrip.ms_to_timestamp ms) = Some ms.
Proof.
  intros Hms.
  unfold Subrip.ms_to_timestamp, Subrip.MAX_REPRESENTABLE_TIME, Time.make_time.
  rewrite Z.gtb_ltb.
  destruct (Z.ltb_spec ms 0); [lia|].
  destruct (Z.ltb_spec (0 + 0 * 1000 + 0 * 60000 + 100 * 3600000 - 1) ms); [lia|].
  unfold Time.ms_to_times.
  set (h := ms / 3600000).
  set (m := ms mod 3600000 / 60000).
  set (s := ms mod 3600000 mod 60000 / 1000).
  set (f := ms mod 3600000 mod 60000 mod 1000).
  assert (Hh : 0 <= h < 100) by (subst h; split;
    [apply Z.div_pos; lia | apply Z.div_lt_upper_bound; lia]).
  assert (Hm : 0 <= m < 60) by (subst m; split;
    [apply Z.div_pos; [apply Z.mod_pos_bound|]; lia
    | apply Z.div_lt_upper_bound; [lia | apply Z.mod_pos_bound; lia]]).
  assert (Hs : 0 <= s < 60) by (subst s; split;
    [apply Z.div_pos; [apply Z.mod_pos_bound|]; lia
    | apply Z.div_lt_upper_bound; [lia | apply Z.mod_pos_bound; lia]]).
  assert (Hf : 0 <= f < 1000) by (subst f; apply Z.mod_pos_bound; lia).
  assert (Hsum : ms = f + s * 1000 + m * 60000 + h * 3600000).
  { subst h m s f.
    pose proof (Z.div_mod ms 3600000).
    pose proof (Z.div_mod (ms mod 3600000) 60000).
    pose proof (Z.div_mod (ms mod 3600000 mod 60000) 1000).
    lia. }
  rewrite (format_0d_2 (h)) by lia.
  rewrite (format_0d_2 (m)) by lia.
  rewrite (format_0d_2 (s)) by lia.
  rewrite (format_0d_3 (f)) by lia.
  digit_facts (h / 10). digit_facts (h mod 10).
  digit_facts (m / 10). digit_facts (m mod 10).
  digit_facts (s / 10). digit_facts (s mod 10).
  digit_facts (f / 100). digit_facts (f / 10 mod 10). digit_facts (f mod 10).
  unfold Time.parse_timestamp.
  cbn [app b list_ascii_of_string].
  rewrite TIMESTAMP_reads_clock_3 by (assumption || (right; reflexivity)).
  unfold Time.timestamp_to_ms, int_of_digits. cbn [fold_left length].
  f_equal.
  repeat match goal with H : digit_value _ = _ |- _ => rewrite H; clear H end.
  change (10 ^ (3 - Z.of_nat 3)) with 1.
  pose proof (Z.div_mod h 10). pose proof (Z.div_mod m 10).
  pose proof (Z.div_mod s 10). pose proof (Z.div_mod f 10).
  pose proof (Z.div_mod (f / 10) 10).
  assert (f / 10 / 10 = f / 100) by (rewrite Z.div_div by lia; reflexivity).
  lia.
Qed.

(** SubStation timestamps read back exactly when the time is a whole
    number of centiseconds. *)
Lemma Substation_roundtrip (ms : Z) :
  0 <= ms <= 35999990 -> ms mod 10 = 0 ->
  Time.parse_timestamp (Substation.ms_to_timestamp ms) = Some ms.
Proof.
  intros Hms Hcs.
  unfold Substation.ms_to_timestamp, Substation.MAX_REPRESENTABLE_TIME,
    Time.make_time.
  rewrite Z.gtb_ltb.
  destruct (Z.ltb_spec ms 0); [lia|].
  destruct (Z.ltb_spec (0 + 0 * 1000 + 0 * 60000 + 10 * 3600000 - 10) ms); [lia|].
  unfold Time.ms_to_times.
  set (h := ms / 3600000).
  set (m := ms mod 3600000 / 60000).
  set (s := ms mod 3600000 mod 60000 / 1000).
  set (f := ms mod 3600000 mod 60000 mod 1000).
  assert (Hh : 0 <= h < 10) by (subst h; split;
    [apply Z.div_pos; lia | apply Z.div_lt_upper_bound; lia]).
  assert (Hm : 0 <= m < 60) by (subst m; split;
    [apply Z.div_pos; [apply Z.mod_pos_bound|]; lia
    | apply Z.div_lt_upper_bound; [lia | apply Z.mod_pos_bound; lia]]).
  assert (Hs : 0 <= s < 60) by (subst s; split;
    [apply Z.div_pos; [apply Z.mod_pos_bound|]; lia
    | apply Z.div_lt_upper_bound; [lia | apply Z.mod_pos_bound; lia]]).
  assert (Hf : 0 <= f < 1000) by (subst f; apply Z.mod_pos_bound; lia).
  assert (Hsum : ms = f + s * 1000 + m * 60000 + h * 3600000).
  { subst h m s f.
    pose proof (Z.div_mod ms 3600000).
    pose proof (Z.div_mod (ms mod 3600000) 60000).
    pose proof (Z.div_mod (ms mod 3600000 mod 60000) 1000).
    lia. }
  assert (Hf10 : f mod 10 = 0).
  { replace f with (ms + (- (s * 100 + m * 6000 + h * 360000)) * 10) by lia.
    rewrite Z.mod_add by lia. exact Hcs. }
  assert (Hc : Substation.centiseconds f = f / 10).
  { unfold Substation.centiseconds.
    pose proof (Z.div_mod f 10). pose proof (Z.div_mod (f + 5) 10).
    pose proof (Z.mod_pos_bound (f + 5) 10).
    assert ((f + 5) mod 10 = 5).
    { replace (f + 5) with (5 + (f / 10) * 10) by lia.
      rewrite Z.mod_add by lia. reflexivity. }
    replace (f + 5 - (f + 5) mod 10) with ((f / 10) * 10) by lia.
    apply Z.div_mul. lia. }
  rewrite Hc.
  assert (Hcs' : 0 <= f / 10 < 100) by (split;
    [apply Z.div_pos; lia | apply Z.div_lt_upper_bound; lia]).
  rewrite (format_0d_1 (h)) by lia.
  rewrite (format_0d_2 (m)) by lia.
  rewrite (format_0d_2 (s)) by lia.
  rewrite (format_0d_2 (f / 10)) by lia.
  digit_facts h.
  digit_facts (m / 10). digit_facts (m mod 10).
  digit_facts (s / 10). digit_facts (s mod 10).
  digit_facts (f / 10 / 10). digit_facts (f / 10 mod 10).
  unfold Time.parse_timestamp.
  cbn [app b list_ascii_of_string].
  rewrite TIMESTAMP_reads_clock_2 by (assumption || (left; reflexivity)).
  unfold Time.timestamp_to_ms, int_of_digits. cbn [fold_left length].
  f_equal.
  repeat match goal with H : digit_value _ = _ |- _ => rewrite H; clear H end.
  change (10 ^ (3 - Z.of_nat 2)) with 10.
  pose proof (Z.div_mod m 10). pose proof (Z.div_mod s 10).
  pose proof (Z.div_mod f 10). pose proof (Z.div_mod (f / 10) 10).
  lia.
Qed.

(** C1, at the failing input: a remainder of 995 ms gives a centisecond
    field of 100, printed with three digits after an unchanged second;
    nothing is carried. *)
Theorem ms_to_timestamp_995_no_carry :
  Substation.centiseconds (995 mod 1000) = 100 /\
  Substation.ms_to_timestamp 995 = b "0:00:00.100" /\
  Substation.ms_to_timestamp 995 <> b "0:00:01.00".
Proof.
  split; [reflexivity | split; [reflexivity | discriminate]].
Qed.

(** C4 as stated fails for SubStation: 5 ms is in range and reads back
    as 10 ms. *)
Lemma Substation_roundtrip_fails_at_5 :
  0 <= 5 <= 35999990 /\
  Time.parse_timestamp (Substation.ms_to_timestamp 5) <> Some 5.
Proof.
  split; [lia | vm_compute; discriminate].
Qed.

(** C4, amended: a SubRip timestamp reads back to the same millisecond
    over the whole range [0, 359999999]; a SubStation timestamp does for
    every whole number of centiseconds in [0, 35999990]; above the range
    both formats print the maximum, and below zero both print zero, so
    [ms_to_timestamp(-5) == ms_to_timestamp(0)]. *)
Theorem timestamp_roundtrip_and_clamp (ms : Z) :
  (0 <= ms <= 359999999 ->
   Time.parse_timestamp (Subrip.ms_to_timestamp ms) = Some ms) /\
  (0 <= ms <= 35999990 -> ms mod 10 = 0 ->
   Time.parse_timestamp (Substation.ms_to_timestamp ms) = Some ms) /\
  (359999999 < ms ->
   Subrip.ms_to_timestamp ms = Subrip.ms_to_timestamp 359999999) /\
  (35999990 < ms ->
   Substation.ms_to_timestamp ms = Substation.ms_to_timestamp 35999990) /\
  (ms < 0 ->
   Subrip.ms_to_timestamp ms = Subrip.ms_to_timestamp 0 /\
   Substation.ms_to_timestamp ms = Substation.ms_to_timestamp 0) /\
  Subrip.ms_to_timestamp (-5) = Subrip.ms_to_timestamp 0 /\
  Substation.ms_to_timestamp (-5) = Substation.ms_to_timestamp 0.
Proof.
  split; [apply Subrip_roundtrip|].
  split; [apply Substation_roundtrip|].
  split.
  { intros H. unfold Subrip.ms_to_timestamp.
    change Subrip.MAX_REPRESENTABLE_TIME with 359999999.
    rewrite !Z.gtb_ltb.
    destruct (Z.ltb_spec ms 0); [lia|].
    destruct (Z.ltb_spec 359999999 ms); [|lia].
    reflexivity. }
  split.
  { intros H. unfold Substation.ms_to_timestamp.
    change Substation.MAX_REPRESENTABLE_TIME with 35999990.
    rewrite !Z.gtb_ltb.
    destruct (Z.ltb_spec ms 0); [lia|].
    destruct (Z.ltb_spec 35999990 ms); [|lia].
    reflexivity. }
  split.
  { intros H. unfold Subrip.ms_to_timestamp, Substation.ms_to_timestamp.
    destruct (Z.ltb_spec ms 0); [|lia].
    split; reflexivity. }
  split; reflexivity.
Qed.

Lemma timestamp_roundtrip_and_clamp_witness :
  Time.parse_timestamp (Subrip.ms_to_timestamp 359999999) = Some 359999999 /\
  Time.parse_timestamp (Substation.ms_to_timestamp 35999990) = Some 35999990 /\
  Subrip.ms_to_timestamp 400000000 = Subrip.ms_to_timestamp 359999999 /\
  Substation.ms_to_timestamp 36000000 = Substation.ms_to_timestamp 35999990.
Proof.
  split; [apply (timestamp_roundtrip_and_clamp 359999999); lia|].
  split; [apply (timestamp_roundtrip_and_clamp 35999990); [lia | reflexivity]|].
  split; [apply (timestamp_roundtrip_and_clamp 400000000); lia|].
  apply (timestamp_roundtrip_and_clamp 36000000); lia.
Defined.

(** ** The matcher: suffixes, locality, anchors *)

(** Whatever a pattern leaves unread is a suffix of its subject. *)
Lemma matches_suffix (r : Re.regex) :
  forall bol s g s', In (g, s') (Re.matches r bol s) -> exists pre, s = pre ++ s'.
Proof.
  induction r as [t|p|p lo hi|r1 IH1 r2 IH2|r1 IH1 r2 IH2|r IH| |];
    intros bol s g s' H; cbn [Re.matches] in H.
  - destruct (startswith s t); [|contradiction].
    destruct H as [H|[]]. injection H as <- <-.
    exists (firstn (length t) s). symmetry. apply firstn_skipn.
  - destruct s as [|c s0]; [contradiction|].
    destruct (p c); [|contradiction].
    destruct H as [H|[]]. injection H as <- <-. exists [c]. reflexivity.
  - apply in_map_iff in H. destruct H as (k & H & _).
    injection H as <- <-. exists (firstn k s). symmetry. apply firstn_skipn.
  - apply in_flat_map in H. destruct H as ([g1 s1] & H1 & H2).
    apply in_map_iff in H2. destruct H2 as ([g2 s2] & E & H2).
    injection E as <- <-.
    destruct (IH1 _ _ _ _ H1) as (pre1 & ->).
    destruct (IH2 _ _ _ _ H2) as (pre2 & ->).
    exists (pre1 ++ pre2). apply app_assoc.
  - apply in_app_or in H. destruct H as [H|H]; eauto.
  - apply in_map_iff in H. destruct H as ([g0 s0] & E & H).
    injection E as <- <-. eauto.
  - destruct bol; [|contradiction].
    destruct H as [H|[]]. injection H as <- <-. exists []. reflexivity.
  - destruct s as [|c [|d s0]]; try contradiction.
    + destruct H as [H|[]]. injection H as <- <-. exists []. reflexivity.
    + destruct (Ascii.eqb c LF); [|contradiction].
      destruct H as [H|[]]. injection H as <- <-. exists []. reflexivity.
Qed.

Lemma in_matches_Cat (r1 r2 : Re.regex) bol s g s' :
  In (g, s') (Re.matches (Re.Cat r1 r2) bol s) ->
  exists g1 s1 g2 bol',
    In (g1, s1) (Re.matches r1 bol s) /\
    In (g2, s') (Re.matches r2 bol' s1) /\ g = g1 ++ g2.
Proof.
  cbn [Re.matches]. intros H.
  apply in_flat_map in H. destruct H as ([g1 s1] & H1 & H2).
  apply in_map_iff in H2. destruct H2 as ([g2 s2] & E & H2).
  injection E as <- <-. eauto 8.
Qed.

Lemma in_matches_Lit (t : text) bol s g s' :
  In (g, s') (Re.matches (Re.Lit t) bol s) -> s = t ++ s' /\ g = [].
Proof.
  cbn [Re.matches]. intros H.
  destruct (startswith s t) eqn:E; [|contradiction].
  destruct H as [H|[]]. injection H as <- <-. split; [|reflexivity].
  revert s E. induction t as [|x t IH]; intros s E; [reflexivity|].
  destruct s as [|c s]; [discriminate|]. cbn in E.
  apply andb_true_iff in E. destruct E as [E1 E2].
  apply Ascii.eqb_eq in E1. subst c. cbn. f_equal. apply IH. exact E2.
Qed.

(** The matched text of a result, from the split of the subject. *)
Lemma matched_app (pre s' : text) : Re.matched (pre ++ s') s' = pre.
Proof.
  unfold Re.matched. rewrite length_app.
  replace (length pre + length s' - length s')%nat with (length pre) by lia.
  rewrite firstn_app, Nat.sub_diag, firstn_all. cbn. apply app_nil_r.
Qed.

Lemma matches_no_bos (r : Re.regex) :
  no_bos r = true -> forall b1 b2 s, Re.matches r b1 s = Re.matches r b2 s.
Proof.
  induction r as [t|p|p lo hi|r1 IH1 r2 IH2|r1 IH1 r2 IH2|r IH| |];
    cbn [no_bos]; intros H b1 b2 s; cbn [Re.matches]; try reflexivity.
  - apply andb_true_iff in H. destruct H as [H1 H2].
    rewrite (IH1 H1 b1 b2). apply flat_map_ext. intros [g1 s1].
    rewrite (IH2 H2 _ (b2 && (length s1 =? length s)%nat)). reflexivity.
  - apply andb_true_iff in H. destruct H as [H1 H2].
    rewrite (IH1 H1 b1 b2), (IH2 H2 b1 b2). reflexivity.
  - rewrite (IH H b1 b2). reflexivity.
  - discriminate.
Qed.

Lemma scan_from_no_bos (r : Re.regex) :
  no_bos r = true ->
  forall b1 b2 skip s, Re.scan_from r b1 skip s = Re.scan_from r b2 skip s.
Proof.
  intros H b1 b2 skip s. destruct s as [|c s]; [reflexivity|].
  cbn [Re.scan_from]. rewrite (matches_no_bos r H b1 b2). reflexivity.
Qed.

Lemma startswith_local (x : ascii) (t : text) :
  existsb (Ascii.eqb x) t = false ->
  forall a rest,
    startswith (a ++ x :: rest) t = startswith (a ++ [x]) t /\
    (startswith (a ++ [x]) t = true -> (length t <= length a)%nat).
Proof.
  induction t as [|y t IH]; intros H a rest.
  - destruct a; cbn; split; (reflexivity || lia).
  - cbn in H. apply orb_false_iff in H. destruct H as [Hy Ht].
    destruct a as [|c a]; cbn [app startswith].
    + rewrite Ascii.eqb_sym, Hy. cbn. split; [reflexivity | discriminate].
    + destruct (IH Ht a rest) as [E L]. rewrite E. split; [reflexivity|].
      intros H. apply andb_true_iff in H. destruct H as [_ H].
      cbn [length]. apply L in H. lia.
Qed.

Lemma span_local (x : ascii) (p : ascii -> bool) :
  p x = false ->
  forall a hi rest,
    Re.span p hi (a ++ x :: rest) = Re.span p hi (a ++ [x]) /\
    (Re.span p hi (a ++ [x]) <= length a)%nat.
Proof.
  intros Hx. induction a as [|c a IH]; intros hi rest.
  - cbn [app Re.span]. rewrite Hx.
    destruct hi as [[|n]|]; cbn; split; (reflexivity || lia).
  - cbn [app Re.span length].
    destruct hi as [[|n]|]; cbn [option_map pred].
    + split; (reflexivity || lia).
    + destruct (p c); [|split; (reflexivity || lia)].
      destruct (IH (Some n) rest) as [E L]. rewrite E. split; [reflexivity | lia].
    + destruct (p c); [|split; (reflexivity || lia)].
      destruct (IH None rest) as [E L]. rewrite E. split; [reflexivity | lia].
Qed.

Lemma counts_down_le (n lo k : nat) : In k (Re.counts_down n lo) -> (k <= n)%nat.
Proof.
  induction n as [|n IH]; cbn [Re.counts_down]; intros H.
  - destruct (0 <? lo)%nat; [contradiction|]. destruct H as [<-|[]]. lia.
  - destruct (S n <? lo)%nat; [contradiction|].
    destruct H as [<-|H]; [lia|]. apply IH in H. lia.
Qed.

Lemma matches_local (x : ascii) (r : Re.regex) :
  avoids x r = true ->
  forall bol a rest,
    Re.matches r bol (a ++ x :: rest)
    = map (extend rest) (Re.matches r bol (a ++ [x]))
    /\ (forall g s', In (g, s') (Re.matches r bol (a ++ [x])) ->
                     exists a', s' = a' ++ [x]).
Proof.
  induction r as [t|p|p lo hi|r1 IH1 r2 IH2|r1 IH1 r2 IH2|r IH| |];
    cbn [avoids]; intros Hr bol a rest.
  - (* Lit *)
    apply negb_true_iff in Hr.
    destruct (startswith_local x t Hr a rest) as [E L].
    cbn [Re.matches]. rewrite E.
    destruct (startswith (a ++ [x]) t) eqn:S1.
    + specialize (L eq_refl). split.
      * cbn [map]. unfold extend. cbn [fst snd]. rewrite !skipn_app.
        replace (length t - length a)%nat with 0%nat by lia.
        rewrite !skipn_O, <- app_assoc. reflexivity.
      * intros g s' [H|[]]. injection H as <- <-.
        rewrite skipn_app. replace (length t - length a)%nat with 0%nat by lia.
        rewrite skipn_O. eauto.
    + split; [reflexivity | intros g s' []].
  - (* Cls *)
    apply negb_true_iff in Hr. cbn [Re.matches].
    destruct a as [|c a]; cbn [app].
    + rewrite Hr. split; [reflexivity | intros g s' []].
    + destruct (p c).
      * split.
        -- cbn [map]. unfold extend. cbn [fst snd].
           rewrite <- app_assoc. reflexivity.
        -- intros g s' [H|[]]. injection H as <- <-. eauto.
      * split; [reflexivity | intros g s' []].
  - (* Rep *)
    apply negb_true_iff in Hr. cbn [Re.matches].
    destruct (span_local x p Hr a hi rest) as [E L]. rewrite E.
    split.
    + rewrite map_map. apply map_ext_in. intros k Hk.
      apply counts_down_le in Hk. unfold extend. cbn [fst snd].
      rewrite !skipn_app.
      replace (k - length a)%nat with 0%nat by lia.
      rewrite !skipn_O, <- app_assoc. reflexivity.
    + intros g s' H. apply in_map_iff in H. destruct H as (k & H & Hk).
      apply counts_down_le in Hk. injection H as <- <-.
      rewrite skipn_app. replace (k - length a)%nat with 0%nat by lia.
      rewrite skipn_O. eauto.
  - (* Cat *)
    apply andb_true_iff in Hr. destruct Hr as [H1 H2].
    destruct (IH1 H1 bol a rest) as [E1 C1].
    split.
    + cbn [Re.matches]. rewrite E1. rewrite flat_map_concat_map, map_map.
      rewrite flat_map_concat_map, concat_map, map_map.
      f_equal. apply map_ext_in. intros [g1 s1] Hin.
      destruct (C1 _ _ Hin) as (a1 & ->).
      unfold extend at 1. cbn [fst snd].
      rewrite <- (app_assoc a1 [x] rest). cbn [app].
      destruct (IH2 H2 (bol && (length (a1 ++ x :: rest) =? length (a ++ x :: rest))%nat)
                    a1 rest) as [E2 _].
      rewrite E2. rewrite !map_map.
      replace (length (a1 ++ x :: rest) =? length (a ++ x :: rest))%nat
        with (length (a1 ++ [x]) =? length (a ++ [x]))%nat.
      * apply map_ext. intros [g2 s2]. reflexivity.
      * rewrite !length_app. cbn [length].
        destruct (Nat.eqb_spec (length a1 + 1) (length a + 1));
          destruct (Nat.eqb_spec (length a1 + S (length rest))
                                 (length a + S (length rest))); (reflexivity || lia).
    + intros g s' H. apply in_matches_Cat in H.
      destruct H as (g1 & s1 & g2 & bol' & Hin1 & Hin2 & _).
      destruct (C1 _ _ Hin1) as (a1 & ->).
      destruct (IH2 H2 bol' a1 rest) as [_ C2]. eauto.
  - (* Alt *)
    apply andb_true_iff in Hr. destruct Hr as [H1 H2].
    destruct (IH1 H1 bol a rest) as [E1 C1].
    destruct (IH2 H2 bol a rest) as [E2 C2].
    cbn [Re.matches]. rewrite E1, E2, map_app. split; [reflexivity|].
    intros g s' H. apply in_app_or in H. destruct H; eauto.
  - (* Grp *)
    destruct (IH Hr bol a rest) as [E C].
    cbn [Re.matches]. rewrite E, !map_map. split.
    + apply map_ext_in. intros [g s'] Hin.
      destruct (C _ _ Hin) as (a' & ->).
      destruct (matches_suffix _ _ _ _ _ Hin) as (pre & Hpre).
      rewrite app_assoc in Hpre. apply app_inj_tail in Hpre.
      destruct Hpre as [-> _].
      unfold extend. cbn [fst snd]. f_equal. f_equal.
      rewrite <- !app_assoc. cbn [app].
      change (firstn (length (pre ++ a' ++ x :: rest) - length (a' ++ x :: rest))
                     (pre ++ a' ++ x :: rest))
        with (Re.matched (pre ++ a' ++ x :: rest) (a' ++ x :: rest)).
      change (firstn (length (pre ++ a' ++ [x]) - length (a' ++ [x]))
                     (pre ++ a' ++ [x]))
        with (Re.matched (pre ++ a' ++ [x]) (a' ++ [x])).
      rewrite !matched_app. reflexivity.
    + intros g s' H. apply in_map_iff in H. destruct H as ([g0 s0] & H & Hin).
      injection H as <- <-. eauto.
  - (* Bos *)
    cbn [Re.matches]. destruct bol.
    + split.
      * cbn [map]. unfold extend. cbn [fst snd]. rewrite <- app_assoc. reflexivity.
      * intros g s' [H|[]]. injection H as <- <-. eauto.
    + split; [reflexivity | intros g s' []].
  - discriminate.
Qed.

(** ** Scanning *)

(** A scan of [a ++ x :: rest] by a pattern that avoids [x] is the scan
    up to that [x] followed by the scan of [rest]. *)
Lemma scan_from_local (x : ascii) (r : Re.regex) :
  avoids x r = true ->
  forall a bol skip rest,
    (skip <= length a + 1)%nat ->
    Re.scan_from r bol skip (a ++ x :: rest)
    = Re.scan_from r bol skip (a ++ [x]) ++ Re.scan_from r false 0 rest.
Proof.
  intros Hr. induction a as [|c a IH]; intros bol skip rest Hskip.
  - cbn [app Re.scan_from]. destruct skip as [|k].
    + destruct (matches_local x r Hr bol [] rest) as [E C]. cbn [app] in E, C.
      rewrite E.
      destruct (Re.matches r bol [x]) as [|[g s'] l] eqn:M; [reflexivity|].
      cbn [map hd_error extend fst snd].
      destruct (C g s' (or_introl eq_refl)) as (a' & ->).
      assert (Hin : In (g, a' ++ [x]) (Re.matches r bol [x]))
        by (rewrite M; left; reflexivity).
      destruct (matches_suffix _ _ _ _ _ Hin) as (pre & Hpre).
      assert (a' = []) as ->.
      { apply (f_equal (@length ascii)) in Hpre. rewrite !length_app in Hpre.
        cbn [length] in Hpre. destruct a'; [reflexivity | cbn [length] in Hpre; lia]. }
      cbn [app length Nat.sub]. rewrite Nat.sub_diag. reflexivity.
    + assert (k = 0)%nat as -> by (cbn [length] in Hskip; lia).
      destruct rest; reflexivity.
  - cbn [app Re.scan_from]. destruct skip as [|k].
    + destruct (matches_local x r Hr bol (c :: a) rest) as [E C].
      cbn [app] in E, C. rewrite E.
      destruct (Re.matches r bol (c :: a ++ [x])) as [|[g s'] l] eqn:M.
      * cbn [map hd_error app]. f_equal. apply IH. lia.
      * cbn [map hd_error extend fst snd].
        destruct (C g s' (or_introl eq_refl)) as (a' & ->).
        assert (Hin : In (g, a' ++ [x]) (Re.matches r bol (c :: a ++ [x])))
          by (rewrite M; left; reflexivity).
        destruct (matches_suffix _ _ _ _ _ Hin) as (pre & Hpre).
        change (c :: a ++ [x]) with ((c :: a) ++ [x]) in Hpre.
        rewrite app_assoc in Hpre. apply app_inj_tail in Hpre.
        destruct Hpre as [Hpre _].
        assert (X1 : c :: a ++ x :: rest = pre ++ ((a' ++ [x]) ++ rest)).
        { change (c :: a ++ x :: rest) with ((c :: a) ++ x :: rest).
          rewrite Hpre, <- !app_assoc. reflexivity. }
        assert (X2 : c :: a ++ [x] = pre ++ (a' ++ [x])).
        { change (c :: a ++ [x]) with ((c :: a) ++ [x]).
          rewrite Hpre, <- !app_assoc. reflexivity. }
        assert (L1 : (length (c :: a ++ x :: rest)
                      - length ((a' ++ [x]) ++ rest))%nat = length pre).
        { rewrite X1, length_app. lia. }
        assert (L2 : (length (c :: a ++ [x]) - length (a' ++ [x]))%nat
                     = length pre).
        { rewrite X2, length_app. lia. }
        assert (M1 : Re.matched (c :: a ++ x :: rest) ((a' ++ [x]) ++ rest) = pre).
        { rewrite X1. apply matched_app. }
        assert (M2 : Re.matched (c :: a ++ [x]) (a' ++ [x]) = pre).
        { rewrite X2. apply matched_app. }
        rewrite L1, L2, M1, M2.
        apply (f_equal (@length ascii)) in Hpre.
        rewrite length_app in Hpre. cbn [length] in Hpre.
        destruct (length pre) as [|k].
        -- cbn [app]. f_equal. apply IH. lia.
        -- cbn [app]. f_equal. apply IH. lia.
    + apply IH. cbn [length] in Hskip. lia.
Qed.

(** Over a concatenation of pieces that each end in [x], the matches of
    such a pattern are the matches within the pieces. *)
Lemma findall_join (x : ascii) (r : Re.regex) :
  avoids x r = true -> no_bos r = true ->
  forall pieces,
    Forall (fun piece => exists a, piece = a ++ [x]) pieces ->
    Re.findall r (join pieces) = flat_map (Re.findall r) pieces.
Proof.
  intros Ha Hb. induction pieces as [|piece pieces IH]; intros F; [reflexivity|].
  inversion F as [|? ? (a & ->) F']; subst.
  unfold join. cbn [concat flat_map]. rewrite <- IH by assumption.
  unfold Re.findall, Re.scan. rewrite <- flat_map_app. f_equal.
  rewrite <- app_assoc. cbn [app].
  rewrite (@scan_from_local x r Ha a true 0%nat) by lia.
  rewrite (scan_from_no_bos r Hb false true). reflexivity.
Qed.

(** Every match a scan reports is the first match of the pattern at some
    position. *)
Lemma scan_from_matches (r : Re.regex) (m : text) (g : list text) :
  forall s bol skip,
    In (Re.TMatch m g) (Re.scan_from r bol skip s) ->
    exists bol' s0 rest,
      hd_error (Re.matches r bol' s0) = Some (g, rest) /\ m = Re.matched s0 rest.
Proof.
  induction s as [|c s IH]; intros bol skip H; [contradiction|].
  cbn [Re.scan_from] in H. destruct skip as [|k]; [|eauto].
  destruct (hd_error (Re.matches r bol (c :: s))) as [[g0 rest]|] eqn:M.
  - destruct (length (c :: s) - length rest)%nat.
    + destruct H as [H|H]; [discriminate | eauto].
    + destruct H as [H|H]; [|eauto]. injection H as <- <-. eauto.
  - destruct H as [H|H]; [discriminate | eauto].
Qed.

(** A split has one more piece than there are matches. *)
Lemma split_tokens_length (ts : list Re.token) :
  length (Re.split_tokens ts)
  = S (length (flat_map (fun t => match t with
                                  | Re.TChar _ => []
                                  | Re.TMatch m _ => [m]
                                  end) ts)).
Proof.
  induction ts as [|[c|m g] ts IH]; cbn [Re.split_tokens flat_map app length].
  - reflexivity.
  - destruct (Re.split_tokens ts); [discriminate|]. exact IH.
  - rewrite IH. reflexivity.
Qed.

Lemma split_length (r : Re.regex) (s : text) :
  length (Re.split r s) = S (length (Re.findall r s)).
Proof. apply split_tokens_length. Qed.

(** ** Override sequences *)

(** An override sequence ends with its closing brace. *)
Lemma OVERRIDE_SEQUENCE_closed (s : text) (ov : text) :
  In ov (Re.findall OVERRIDE_SEQUENCE s) -> exists a, ov = a ++ b "}".
Proof.
  unfold Re.findall, Re.scan. intros H.
  apply in_flat_map in H. destruct H as ([c|m g] & Hin & H); [contradiction|].
  destruct H as [<-|[]].
  apply scan_from_matches in Hin.
  destruct Hin as (bol & s0 & rest & Hm & ->).
  assert (Hin : In (g, rest) (Re.matches OVERRIDE_SEQUENCE bol s0)).
  { destruct (Re.matches OVERRIDE_SEQUENCE bol s0); [discriminate|].
    injection Hm as ->. left. reflexivity. }
  unfold OVERRIDE_SEQUENCE in Hin.
  apply in_matches_Cat in Hin.
  destruct Hin as (g1 & s1 & g2 & bol1 & H1 & H2 & _).
  apply in_matches_Cat in H2.
  destruct H2 as (g3 & s2 & g4 & bol2 & H3 & H4 & _).
  apply matches_suffix in H1. destruct H1 as (pre1 & ->).
  apply matches_suffix in H3. destruct H3 as (pre2 & ->).
  apply in_matches_Lit in H4. destruct H4 as [-> _].
  exists (pre1 ++ pre2).
  replace (pre1 ++ pre2 ++ b "}" ++ rest) with (((pre1 ++ pre2) ++ b "}") ++ rest)
    by (rewrite <- !app_assoc; reflexivity).
  apply matched_app.
Qed.

Lemma apply_overrides_join (style : SSAStyle) (styles : dict SSAStyle)
      (overrides : list text) :
  Forall (fun ov => exists a, ov = a ++ b "}") overrides ->
  Substation.apply_overrides style styles (join overrides)
  = resolved_style style styles overrides.
Proof.
  intros F. unfold Substation.apply_overrides, resolved_style.
  rewrite (@findall_join "}" Substation.TAG eq_refl eq_refl overrides F).
  reflexivity.
Qed.

Lemma Forall_firstn {A : Type} (P : A -> Prop) (n : nat) (l : list A) :
  Forall P l -> Forall P (firstn n l).
Proof.
  intros F. revert n. induction F as [|x l Hx F IH]; intros [|n]; cbn [firstn];
    constructor; auto.
Qed.

(** C3: with N >= 1 override sequences, [parse_tags] returns N+1 pairs;
    pair i is fragment i with the fold of the tags of the override
    sequences before it, started from the base style.  In that fold a
    bare [\r] gives the base style back, and [\r<name>] gives
    [styles[name]] when the name is present and leaves the accumulated
    style when it is absent. *)
Theorem parse_tags_folds_overrides
        (text_ : text) (style : SSAStyle) (styles : dict SSAStyle) :
  let overrides := Re.findall OVERRIDE_SEQUENCE text_ in
  let fragments := Re.split OVERRIDE_SEQUENCE text_ in
  (1 <= length overrides)%nat ->
  length (Substation.parse_tags text_ style styles) = (length overrides + 1)%nat /\
  (forall i, (i <= length overrides)%nat ->
     nth_error (Substation.parse_tags text_ style styles) i
     = Some (nth i fragments [],
             resolved_style style styles (firstn i overrides))) /\
  (forall s, Substation.apply_tag style styles s (b "\r") = style) /\
  (forall s name, name <> [] ->
     Substation.apply_tag style styles s (b "\r" ++ name)
     = match dict_get styles (Bytes name) with
       | Some named => named
       | None => s
       end).
Proof.
  intros overrides fragments HN.
  assert (Hlen : length fragments = S (length overrides)) by apply split_length.
  assert (Hclosed : Forall (fun ov => exists a, ov = a ++ b "}") overrides).
  { apply Forall_forall. intros ov Hin. exact (OVERRIDE_SEQUENCE_closed _ _ Hin). }
  assert (Hparse :
    Substation.parse_tags text_ style styles
    = combine fragments
        (map (fun i => resolved_style style styles (firstn i overrides))
             (seq 0 (length overrides + 1)))).
  { unfold Substation.parse_tags. fold fragments. fold overrides.
    rewrite Hlen.
    destruct (Nat.eqb_spec (S (length overrides)) 1); [lia|].
    f_equal. rewrite map_map. apply map_ext. intros i.
    apply apply_overrides_join. apply Forall_firstn. exact Hclosed. }
  rewrite Hparse. clear Hparse. clearbody fragments overrides.
  unfold text in *.
  split; [|split; [|split]].
  - rewrite length_combine, length_map, length_seq, Hlen. lia.
  - intros i Hi.
    rewrite nth_error_nth' with (d := (@nil ascii, style)).
    + rewrite combine_nth by (rewrite length_map, length_seq; lia).
      f_equal. f_equal.
      rewrite (nth_indep _ style
                 (resolved_style style styles (firstn 0 overrides)))
        by (rewrite length_map, length_seq; lia).
      rewrite (map_nth (fun i => resolved_style style styles (firstn i overrides))).
      rewrite seq_nth by lia. reflexivity.
    + rewrite length_combine, length_map, length_seq, Hlen. lia.
  - intros s. reflexivity.
  - intros s name Hname. unfold Substation.apply_tag.
    destruct name as [|c name]; [contradiction|].
    replace (text_eqb (b "\r" ++ c :: name) (b "\r")) with false
      by (unfold text_eqb; destruct (text_eq_dec _ _) as [E|]; [discriminate | reflexivity]).
    cbn [b list_ascii_of_string app startswith skipn].
    rewrite !Ascii.eqb_refl. reflexivity.
Qed.

Lemma parse_tags_folds_overrides_witness :
  nth_error (Substation.parse_tags (b "{\i1}a{\r}c") plain_style []) 2
  = Some (b "c", resolved_style plain_style [] [b "{\i1}"; b "{\r}"]).
Proof.
  exact (proj1 (proj2 (parse_tags_folds_overrides (b "{\i1}a{\r}c") plain_style []
                         (le_S _ _ (le_n 1)))) 2%nat (le_n 2)).
Defined.

(** ** SubRip serializer *)

Lemma body_of_drawing (apply_styles : bool) (frags : list (text * SSAStyle)) :
  existsb (fun fs => drawing (snd fs)) frags = true ->
  Subrip.body_of apply_styles frags = Raise ContentNotUsable.
Proof.
  induction frags as [|[fragment sty] frags IH]; cbn [existsb Subrip.body_of snd];
    [discriminate|].
  destruct (drawing sty); [reflexivity|]. cbn [orb]. intros H.
  rewrite (IH H). reflexivity.
Qed.

Lemma prepare_text_drawing (E : Env) (subs : SSAFile) (line : SSAEvent) (t : text) :
  ev_text line = Bytes t ->
  has_drawing E subs line t = true ->
  Subrip.to_file_prepare_text subs true false (ev_text line)
    (dict_get_default (styles subs) (ev_style line) (DEFAULT_STYLE E))
  = Raise ContentNotUsable.
Proof.
  intros Ht Hd. rewrite Ht. unfold Subrip.to_file_prepare_text.
  unfold has_drawing, fragments_of, expanded in Hd.
  rewrite (body_of_drawing true _ Hd). reflexivity.
Qed.

(** The loop only reads the styles of the document. *)
Lemma write_lines_events (E : Env) (subs : SSAFile) (l : list SSAEvent)
      (a k : bool) (lines : list SSAEvent) :
  forall n,
    Subrip.write_lines E (Substation.set_events subs l) a k n lines
    = Subrip.write_lines E subs a k n lines.
Proof.
  induction lines as [|line lines IH]; intros n; [reflexivity|].
  cbn [Subrip.write_lines].
  change (styles (Substation.set_events subs l)) with (styles subs).
  change (Subrip.to_file_prepare_text (Substation.set_events subs l))
    with (Subrip.to_file_prepare_text subs).
  rewrite !IH. reflexivity.
Qed.

Lemma write_lines_skips (E : Env) (subs : SSAFile) (line : SSAEvent) (t : text)
      (before after : list SSAEvent) :
  ev_text line = Bytes t ->
  has_drawing E subs line t = true ->
  forall n,
    Subrip.write_lines E subs true false n (before ++ line :: after)
    = Subrip.write_lines E subs true false n (before ++ after).
Proof.
  intros Ht Hd. induction before as [|x before IH]; intros n.
  - cbn [app Subrip.write_lines].
    rewrite (prepare_text_drawing E subs line t Ht Hd). reflexivity.
  - cbn [app Subrip.write_lines]. rewrite !IH. reflexivity.
Qed.

Lemma consecutive_cons (n : Z) (l : list Z) :
  consecutive_from (n + 1) l -> consecutive_from n (n :: l).
Proof.
  unfold consecutive_from. intros H. cbn [length seq map].
  f_equal; [lia|]. rewrite <- seq_shift, map_map.
  rewrite H at 1. apply map_ext. intros k. lia.
Qed.

Lemma write_lines_consecutive (E : Env) (subs : SSAFile) (a k : bool)
      (lines : list SSAEvent) :
  forall n, consecutive_from n (cue_numbers (fst (Subrip.write_lines E subs a k n lines))).
Proof.
  induction lines as [|line lines IH]; intros n; [reflexivity|].
  cbn [Subrip.write_lines].
  destruct (Subrip.to_file_prepare_text subs a k (ev_text line) _) as [t|[]];
    try reflexivity; try apply IH.
  specialize (IH (n + 1)).
  destruct (Subrip.write_lines E subs a k (n + 1) lines) as [out r].
  cbn [fst] in *. unfold Subrip.cue, cue_numbers.
  cbn [app flat_map print_args print]. apply consecutive_cons. exact IH.
Qed.

(** C5 as stated fails: in [a{\p1}b{\p0}c] only the fragment [b] is a
    drawing, yet nothing of the event is written, the fragment [a]
    included. *)
Lemma drawing_drops_other_fragments :
  let subs := mkFile [] [] [] [] [] [event_with_text (b "a{\p1}b{\p0}c")] in
  let line := event_with_text (b "a{\p1}b{\p0}c") in
  map (fun fs => (fst fs, drawing (snd fs)))
      (fragments_of sample_env subs line (b "a{\p1}b{\p0}c"))
  = [(b "a", false); (b "b", true); (b "c", false)] /\
  Subrip.to_file sample_env subs true false = ([], None) /\
  ~ fragment_written (b "a") (fst (Subrip.to_file sample_env subs true false)).
Proof.
  split; [vm_compute; reflexivity|].
  split; [vm_compute; reflexivity|].
  intros (p & t & Hin & _). vm_compute in Hin. exact Hin.
Qed.

(** C5, amended: when some fragment of an event has a resolved style in
    drawing mode, [prepare_text] raises [ContentNotUsable] and the
    serializer (default options) writes nothing for the event: none of
    its fragments reaches the output. *)
Theorem drawing_event_writes_nothing
        (E : Env) (subs : SSAFile) (line : SSAEvent) (t : text) (lineno : Z) :
  ev_text line = Bytes t ->
  has_drawing E subs line t = true ->
  Subrip.to_file_prepare_text subs true false (ev_text line)
    (dict_get_default (styles subs) (ev_style line) (DEFAULT_STYLE E))
  = Raise ContentNotUsable /\
  Subrip.write_lines E subs true false lineno [line] = ([], None).
Proof.
  intros Ht Hd. split; [apply (prepare_text_drawing E subs line t Ht Hd)|].
  cbn [Subrip.write_lines].
  rewrite (prepare_text_drawing E subs line t Ht Hd). reflexivity.
Qed.

Lemma drawing_event_writes_nothing_witness :
  Subrip.write_lines sample_env empty_file true false 7
    [event_with_text (b "a{\p1}b{\p0}c")] = ([], None).
Proof.
  exact (proj2 (drawing_event_writes_nothing sample_env empty_file
                  (event_with_text (b "a{\p1}b{\p0}c"))
                  (b "a{\p1}b{\p0}c") 7 eq_refl eq_refl)).
Defined.

(** C6: with default options, an event with a fragment in drawing mode is
    skipped whole and the counter is not incremented: the output is that
    of the document without the event, the loop goes on to the next line
    with the counter it had, and the cue numbers written count up from 1
    without a gap. *)
Theorem drawing_line_skipped_numbering_kept
        (E : Env) (subs : SSAFile) (before after : list SSAEvent)
        (line : SSAEvent) (t : text) :
  events subs = before ++ line :: after ->
  ev_text line = Bytes t ->
  has_drawing E subs line t = true ->
  Subrip.to_file E subs true false
  = Subrip.to_file E (Substation.set_events subs (before ++ after)) true false /\
  (forall lineno rest,
      Subrip.write_lines E subs true false lineno (line :: rest)
      = Subrip.write_lines E subs true false lineno rest) /\
  consecutive_from 1 (cue_numbers (fst (Subrip.to_file E subs true false))).
Proof.
  intros Hev Ht Hd.
  split; [|split; [|apply write_lines_consecutive]];
    [|intros lineno rest; apply (write_lines_skips E subs line t [] rest Ht Hd)].
  unfold Subrip.to_file, Subrip._get_visible_lines.
  rewrite write_lines_events.
  change (events (Substation.set_events subs (before ++ after)))
    with (before ++ after).
  rewrite Hev, !filter_app. cbn [filter].
  destruct (negb (is_comment E line)); [|reflexivity].
  apply (write_lines_skips E subs line t _ _ Ht Hd).
Qed.

Lemma drawing_line_skipped_numbering_kept_witness :
  let d := event_with_text (b "a{\p1}b{\p0}c") in
  let x := event_with_text (b "x") in
  let y := event_with_text (b "y") in
  Subrip.to_file sample_env (mkFile [] [] [] [] [] [x; d; y]) true false
  = Subrip.to_file sample_env (mkFile [] [] [] [] [] [x; y]) true false /\
  cue_numbers (fst (Subrip.to_file sample_env (mkFile [] [] [] [] [] [x; d; y])
                                   true false)) = [1; 2].
Proof.
  intros d x y. split.
  - exact (proj1 (drawing_line_skipped_numbering_kept sample_env
                    (mkFile [] [] [] [] [] [x; d; y]) [x] [y] d
                    (b "a{\p1}b{\p0}c") eq_refl eq_refl eq_refl)).
  - reflexivity.
Defined.

(** ** SubRip parser *)

Lemma digit_not_space (c : ascii) : is_digit c = true -> is_space c = false.
Proof.
  destruct c as [[] [] [] [] [] [] [] []]; vm_compute; intros H;
    (reflexivity || discriminate H).
Qed.

Lemma space_not_digit (c : ascii) : is_space c = true -> is_digit c = false.
Proof.
  destruct c as [[] [] [] [] [] [] [] []]; vm_compute; intros H;
    (reflexivity || discriminate H).
Qed.

(** A run of characters of a class, followed by the end or by a character
    outside the class, is read whole by a star. *)
Lemma span_run (p : ascii -> bool) (l rest : text) :
  forallb p l = true ->
  match rest with
  | [] => True
  | c :: _ => p c = false
  end ->
  Re.span p None (l ++ rest) = length l.
Proof.
  intros Hl Hrest. induction l as [|c l IH]; cbn [app length].
  - destruct rest as [|c rest]; [reflexivity|]. cbn [Re.span]. rewrite Hrest.
    reflexivity.
  - cbn [forallb] in Hl. apply andb_true_iff in Hl. destruct Hl as [Hc Hl].
    cbn [Re.span option_map]. rewrite Hc, (IH Hl). reflexivity.
Qed.

Lemma skipn_run (l rest : text) : skipn (length l) (l ++ rest) = rest.
Proof.
  rewrite skipn_app, Nat.sub_diag, skipn_all. reflexivity.
Qed.

Lemma first_run (p : ascii -> bool) (lo : nat) (bol : bool) (l rest : text) :
  forallb p l = true ->
  match rest with
  | [] => True
  | c :: _ => p c = false
  end ->
  (lo <= length l)%nat ->
  hd_error (Re.matches (Re.Rep p lo None) bol (l ++ rest)) = Some ([], rest).
Proof.
  intros Hl Hrest Hlo.
  rewrite (@first_Rep p lo None bol (l ++ rest) _ (span_run p l rest Hl Hrest) Hlo).
  rewrite skipn_run. reflexivity.
Qed.

Lemma first_run_end (p : ascii -> bool) (lo : nat) (bol : bool) (l : text) :
  forallb p l = true -> (lo <= length l)%nat ->
  hd_error (Re.matches (Re.Rep p lo None) bol l) = Some ([], []).
Proof.
  intros Hl Hlo. pose proof (first_run p lo bol l [] Hl I Hlo) as H.
  rewrite app_nil_r in H. exact H.
Qed.

Lemma BLANK_LINE_matches (line : text) :
  blank line -> Re.found (Re.re_match Subrip.BLANK_LINE line) = true.
Proof.
  intros H. unfold Re.re_match, Subrip.BLANK_LINE, Re.Star.
  rewrite (@first_Cat (Re.Rep is_space 0 None) Re.Eos true line [] [] [] []).
  - reflexivity.
  - apply first_run_end; [exact H | lia].
  - reflexivity.
Qed.

Lemma NUMBER_LINE_matches (line : text) :
  bare_integer line -> Re.found (Re.re_match Subrip.NUMBER_LINE line) = true.
Proof.
  intros (ws1 & ds & ws2 & -> & Hds & H1 & Hd & H2).
  unfold Re.re_match, Subrip.NUMBER_LINE, Re.Star, Re.Plus.
  destruct ds as [|d ds]; [contradiction|].
  assert (Hd0 : is_digit d = true)
    by (cbn [forallb] in Hd; apply andb_true_iff in Hd; tauto).
  rewrite (@first_Cat (Re.Rep is_space 0 None) _ true (ws1 ++ (d :: ds) ++ ws2)
                      [] ((d :: ds) ++ ws2) [] []).
  - reflexivity.
  - apply first_run; [exact H1 | apply digit_not_space; exact Hd0 | lia].
  - rewrite (@first_Cat (Re.Rep is_digit 1 None) _ _ ((d :: ds) ++ ws2)
                        [] ws2 [] []).
    + reflexivity.
    + apply first_run; [exact Hd | | cbn [length]; lia].
      destruct ws2 as [|w ws2]; [exact I|].
      cbn [forallb] in H2. apply andb_true_iff in H2.
      apply space_not_digit. tauto.
    + rewrite (@first_Cat (Re.Rep is_space 0 None) Re.Eos _ ws2 [] [] [] []).
      * reflexivity.
      * apply first_run_end; [exact H2 | lia].
      * reflexivity.
Qed.

(** C7: a cue whose buffered lines are at least two, all blank but the
    last, which is a bare integer, gets the empty byte string as text. *)
Theorem empty_cue_reads_empty
        (E : Env) (o : Subrip.read_options) (lines : list text) (start end_ : Z) :
  (2 <= length lines)%nat ->
  Forall blank (removelast lines) ->
  bare_integer (last lines []) ->
  Subrip.from_file_prepare_text o lines = [] /\
  ev_text (Subrip.new_event E start end_ (Subrip.from_file_prepare_text o lines))
  = Bytes [].
Proof.
  intros Hlen Hblank Hnum.
  assert (H : Subrip.from_file_prepare_text o lines = []).
  { unfold Subrip.from_file_prepare_text.
    replace (2 <=? length lines)%nat with true
      by (symmetry; apply Nat.leb_le; exact Hlen).
    replace (forallb (fun line => Re.found (Re.re_match Subrip.BLANK_LINE line))
                     (removelast lines)) with true.
    - rewrite (NUMBER_LINE_matches _ Hnum). reflexivity.
    - symmetry. apply forallb_forall. intros line Hin.
      apply BLANK_LINE_matches. rewrite Forall_forall in Hblank. auto. }
  split; [exact H|]. rewrite H. reflexivity.
Qed.

Lemma empty_cue_reads_empty_witness :
  Subrip.from_file_prepare_text Subrip.default_read_options
    [[LF]; b "  " ++ [LF]; b "3" ++ [LF]] = [].
Proof.
  refine (proj1 (empty_cue_reads_empty sample_env Subrip.default_read_options
                   [[LF]; b "  " ++ [LF]; b "3" ++ [LF]] 0 0 _ _ _)).
  - cbn [length]. lia.
  - repeat constructor.
  - exists [], (b "3"), [LF]. repeat split. discriminate.
Defined.




(** ** SubStation parser and serializer *)

(** C9: a [start] or [end] field that is [-0:00:01.00] once stripped is
    read as -1000 ms; in general a leading [-] is accepted, what follows
    is read by the timestamp grammar, and the value is negated. *)
Theorem negative_timestamp_field
        (E : Env) (format_ : format) (f : string) (v : text) :
  f = "start"%string \/ f = "end"%string ->
  (strip v = b "-0:00:01.00" ->
   Substation.string_to_field E format_ f v = Ok (VInt (-1000))) /\
  (forall rest ms,
      strip v = b "-" ++ rest ->
      Time.parse_timestamp rest = Some ms ->
      Substation.string_to_field E format_ f v = Ok (VInt (- ms))).
Proof.
  intros Hf.
  assert (G : forall rest ms,
             strip v = b "-" ++ rest ->
             Time.parse_timestamp rest = Some ms ->
             Substation.string_to_field E format_ f v = Ok (VInt (- ms))).
  { intros rest ms Hv Hp. unfold Substation.string_to_field.
    replace (Substation.field_in f ["start"; "end"]%string) with true
      by (destruct Hf as [-> | ->]; reflexivity).
    rewrite Hv. cbn [b list_ascii_of_string app startswith skipn].
    rewrite Ascii.eqb_refl. cbn [andb].
    unfold Time.parse_timestamp in Hp.
    destruct (Re.re_match Time.TIMESTAMP rest) as [[groups r]|]; [|discriminate].
    rewrite Hp; repeat f_equal; lia. }
  split; [|exact G].
  intros Hv. apply (G (b "0:00:01.00") 1000); [exact Hv | reflexivity].
Qed.

Lemma negative_timestamp_field_witness :
  Substation.string_to_field sample_env ASS "start" (b "  -0:00:01.00 ")
  = Ok (VInt (-1000)).
Proof.
  exact (proj1 (negative_timestamp_field sample_env ASS "start"
                  (b "  -0:00:01.00 ") (or_introl eq_refl)) eq_refl).
Defined.

Lemma step_prepend (pre : list SSAEvent) (E : Env) (format_ : format)
      (st : Substation.state) (line : text) :
  Substation.step E format_ (prepend pre st) line
  = match Substation.step E format_ st line with
    | Ok st' => Ok (prepend pre st')
    | Raise e => Raise e
    end.
Proof.
  destruct st as [d ii ia fi gi name buf isf].
  unfold Substation.step, prepend, with_earlier_events, Substation.with_subs.
  cbn [Substation.subs Substation.inside_info_section
       Substation.inside_aegisub_section Substation.inside_font_section
       Substation.inside_graphic_section Substation.current_attachment_name
       Substation.current_attachment_lines_buffer
       Substation.current_attachment_is_font].
  destruct (Re.found (Re.re_match Substation.SECTION_HEADING (strip line)));
    [reflexivity|].
  destruct (ii || ia) eqn:Hia.
  { destruct (startswith (strip line) (b ";")); [reflexivity|].
    destruct (split_char ":" (Some 1%nat) (strip line)) as [|k [|v [|x l]]];
      try reflexivity.
    destruct ii; [reflexivity|]. destruct ia; reflexivity. }
  destruct (fi || gi) eqn:Hfg.
  { destruct (Substation.name_set name
              && (Re.found (Re.re_match Substation.ATTACHMENT_FILE_HEADING (strip line))
                  || match strip line with [] => true | _ :: _ => false end)).
    - destruct fi; [|destruct gi; [|discriminate]];
        cbn [bind];
        destruct (Re.re_match Substation.ATTACHMENT_FILE_HEADING (strip line))
          as [[groups r]|]; try reflexivity;
        destruct (strip line); reflexivity.
    - cbn [bind].
      destruct (Re.re_match Substation.ATTACHMENT_FILE_HEADING (strip line))
        as [[groups r]|]; try reflexivity.
      destruct (strip line); reflexivity. }
  destruct (startswith (strip line) (b "Style:")).
  { destruct (Substation.field_dict E format_ _ _); reflexivity. }
  destruct (startswith (strip line) (b "Dialogue:")
            || startswith (strip line) (b "Comment:")); [|reflexivity].
  destruct (Substation.field_dict E format_ _ _); [|reflexivity].
  cbn [bind]. unfold Substation.set_events.
  cbn [Substation.subs events info aegisub_project styles fonts_opaque
       graphics_opaque].
  rewrite <- app_assoc. reflexivity.
Qed.

Lemma run_prepend (pre : list SSAEvent) (E : Env) (format_ : format) (fp : list text) :
  forall st,
    Substation.run E format_ (prepend pre st) fp
    = (prepend pre (fst (Substation.run E format_ st fp)),
       snd (Substation.run E format_ st fp)).
Proof.
  induction fp as [|line fp IH]; intros st; [reflexivity|].
  cbn [Substation.run]. rewrite step_prepend.
  destruct (Substation.step E format_ st line) as [st'|e]; [apply IH | reflexivity].
Qed.

(** Every iteration leaves the events alone or appends one event. *)
Lemma step_appends (E : Env) (format_ : format) (st st' : Substation.state)
      (line : text) :
  Substation.step E format_ st line = Ok st' ->
  events (Substation.subs st') = events (Substation.subs st) \/
  exists ev, events (Substation.subs st') = events (Substation.subs st) ++ [ev].
Proof.
  destruct st as [d ii ia fi gi name buf isf].
  unfold Substation.step, Substation.with_subs.
  cbn [Substation.subs Substation.inside_info_section
       Substation.inside_aegisub_section Substation.inside_font_section
       Substation.inside_graphic_section Substation.current_attachment_name
       Substation.current_attachment_lines_buffer
       Substation.current_attachment_is_font].
  destruct (Re.found (Re.re_match Substation.SECTION_HEADING (strip line))).
  { intros H. injection H as <-. left. reflexivity. }
  destruct (ii || ia) eqn:Hia.
  { destruct (startswith (strip line) (b ";")).
    { intros H. injection H as <-. left. reflexivity. }
    destruct (split_char ":" (Some 1%nat) (strip line)) as [|k [|v [|x l]]];
      try (intros H; injection H as <-; left; reflexivity).
    destruct ii; [intros H; injection H as <-; left; reflexivity|].
    destruct ia; intros H; injection H as <-; left; reflexivity. }
  destruct (fi || gi) eqn:Hfg.
  { destruct (Substation.name_set name
              && (Re.found (Re.re_match Substation.ATTACHMENT_FILE_HEADING (strip line))
                  || match strip line with [] => true | _ :: _ => false end)).
    - destruct fi; [|destruct gi; [|discriminate]];
        cbn [bind];
        destruct (Re.re_match Substation.ATTACHMENT_FILE_HEADING (strip line))
          as [[groups r]|];
        try (intros H; injection H as <-; left; reflexivity);
        destruct (strip line); intros H; injection H as <-; left; reflexivity.
    - cbn [bind].
      destruct (Re.re_match Substation.ATTACHMENT_FILE_HEADING (strip line))
        as [[groups r]|];
        try (intros H; injection H as <-; left; reflexivity).
      destruct (strip line); intros H; injection H as <-; left; reflexivity. }
  destruct (startswith (strip line) (b "Style:")).
  { destruct (Substation.field_dict E format_ _ _); [|discriminate].
    cbn [bind]. intros H. injection H as <-. left. reflexivity. }
  destruct (startswith (strip line) (b "Dialogue:")
            || startswith (strip line) (b "Comment:")).
  - destruct (Substation.field_dict E format_ _ _); [|discriminate].
    cbn [bind]. intros H. injection H as <-. right. eexists. reflexivity.
  - intros H. injection H as <-. left. reflexivity.
Qed.

(** A line that starts with [Dialogue:] or [Comment:] is no section
    heading: the bracket of a heading is among the first four characters. *)
Lemma event_line_is_no_heading (rest : text) :
  Re.re_match Substation.SECTION_HEADING (b "Dialogue:" ++ rest) = None /\
  Re.re_match Substation.SECTION_HEADING (b "Comment:" ++ rest) = None.
Proof. split; reflexivity. Qed.

(** Outside the info, Aegisub and attachment sections, a [Dialogue:] or
    [Comment:] line whose fields are read without an exception appends
    one event, of the type named before the colon. *)
Lemma step_appends_event (E : Env) (format_ : format) (st st' : Substation.state)
      (line kind rest : text) :
  kind = b "Dialogue" \/ kind = b "Comment" ->
  strip line = kind ++ b ":" ++ rest ->
  Substation.inside_info_section st = false ->
  Substation.inside_aegisub_section st = false ->
  Substation.inside_font_section st = false ->
  Substation.inside_graphic_section st = false ->
  Substation.step E format_ st line = Ok st' ->
  exists ev,
    events (Substation.subs st') = events (Substation.subs st) ++ [ev] /\
    ev_type ev = Bytes kind.
Proof.
  intros Hkind Hline Hi Ha Hf Hg.
  unfold Substation.step. rewrite Hline, Hi, Ha, Hf, Hg. cbn [orb].
  destruct Hkind as [-> | ->].
  - destruct (event_line_is_no_heading rest) as [H _].
    change (b "Dialogue" ++ b ":" ++ rest) with (b "Dialogue:" ++ rest).
    rewrite H. cbn [Re.found].
    change (startswith (b "Dialogue:" ++ rest) (b "Style:")) with false.
    change (startswith (b "Dialogue:" ++ rest) (b "Dialogue:")) with true.
    cbn [orb].
    destruct (Substation.field_dict E format_ _ _) as [fd|]; [|discriminate].
    cbn [bind]. intros H'. injection H' as <-.
    eexists. split; [reflexivity|].
    rewrite fold_left_app. reflexivity.
  - destruct (event_line_is_no_heading rest) as [_ H].
    change (b "Comment" ++ b ":" ++ rest) with (b "Comment:" ++ rest).
    rewrite H. cbn [Re.found].
    change (startswith (b "Comment:" ++ rest) (b "Style:")) with false.
    change (startswith (b "Comment:" ++ rest) (b "Dialogue:")) with false.
    change (startswith (b "Comment:" ++ rest) (b "Comment:")) with true.
    cbn [orb].
    destruct (Substation.field_dict E format_ _ _) as [fd|]; [|discriminate].
    cbn [bind]. intros H'. injection H' as <-.
    eexists. split; [reflexivity|].
    rewrite fold_left_app. reflexivity.
Qed.

(** C10: [from_file] starts by emptying the five mappings and keeps the
    events: parsing into a document gives what parsing into an empty
    document gives, with the events the document already held ahead of
    the parsed ones; before any line is read the mappings are empty and
    the events untouched; every line read leaves the events alone or
    appends one, and a [Dialogue:] or [Comment:] line read outside the
    info, Aegisub and attachment sections appends its event. *)
Theorem from_file_keeps_earlier_events
        (E : Env) (subs : SSAFile) (fp : list text) (format_ : format) :
  Substation.from_file E subs fp format_
  = (with_earlier_events (events subs)
       (fst (Substation.from_file E empty_file fp format_)),
     snd (Substation.from_file E empty_file fp format_)) /\
  Substation.from_file E subs [] format_
  = (mkFile [] [] [] [] [] (events subs), None) /\
  (forall st line st',
      Substation.step E format_ st line = Ok st' ->
      events (Substation.subs st') = events (Substation.subs st) \/
      exists ev, events (Substation.subs st') = events (Substation.subs st) ++ [ev]) /\
  (forall st line st' kind rest,
      kind = b "Dialogue" \/ kind = b "Comment" ->
      strip line = kind ++ b ":" ++ rest ->
      Substation.inside_info_section st = false ->
      Substation.inside_aegisub_section st = false ->
      Substation.inside_font_section st = false ->
      Substation.inside_graphic_section st = false ->
      Substation.step E format_ st line = Ok st' ->
      exists ev,
        events (Substation.subs st') = events (Substation.subs st) ++ [ev] /\
        ev_type ev = Bytes kind).
Proof.
  split; [|split; [reflexivity | split;
    [intros st line st'; apply step_appends
    |intros st line st' kind rest; apply step_appends_event]]].
  unfold Substation.from_file. cbn [events empty_file].
  replace (Substation.mkState (mkFile [] [] [] [] [] (events subs))
             false false false false None [] None)
    with (prepend (events subs)
            (Substation.mkState (mkFile [] [] [] [] [] [])
               false false false false None [] None))
    by (unfold prepend, with_earlier_events, Substation.with_subs,
          Substation.set_events;
        cbn [Substation.subs events]; rewrite app_nil_r; reflexivity).
  rewrite run_prepend.
  destruct (Substation.run E format_ _ fp) as [st [e|]]; cbn [fst snd].
  - reflexivity.
  - destruct st as [d ii ia fi gi name buf isf].
    unfold prepend, Substation.with_subs.
    cbn [Substation.subs Substation.current_attachment_name
         Substation.current_attachment_lines_buffer
         Substation.current_attachment_is_font].
    destruct (Substation.name_set name); [|reflexivity].
    destruct isf as [[|]|]; reflexivity.
Qed.

Lemma from_file_keeps_earlier_events_witness :
  events (fst (Substation.from_file sample_env
                 (mkFile [] [] [] [] [] [event_with_text (b "old")])
                 [b "Dialogue: 0,0:00:01.00,0:00:02.00,Default,,0,0,0,,new"] ASS))
  = [event_with_text (b "old");
     mkEvent 1000 2000 (Bytes (b "new")) false 0 (Bytes (b "Default")) (Bytes [])
             0 0 0 (Bytes []) (Bytes (b "Dialogue"))].
Proof.
  rewrite (proj1 (from_file_keeps_earlier_events sample_env
                    (mkFile [] [] [] [] [] [event_with_text (b "old")])
                    [b "Dialogue: 0,0:00:01.00,0:00:02.00,Default,,0,0,0,,new"] ASS)).
  reflexivity.
Defined.

Lemma pystr_eqb_refl (k : pystr) : pystr_eqb k k = true.
Proof. destruct k; apply text_eqb_refl. Qed.

Lemma pystr_eqb_eq (k k' : pystr) : pystr_eqb k k' = true -> k = k'.
Proof.
  destruct k, k'; cbn [pystr_eqb]; intros H; try discriminate;
    apply text_eqb_eq in H; subst; reflexivity.
Qed.

(** Reading back the key just assigned, and any other key. *)
Lemma dict_get_set_same {V : Type} (d : dict V) (k : pystr) (v : V) :
  dict_get (dict_set d k v) k = Some v.
Proof.
  induction d as [|[k0 v0] d IH]; cbn [dict_set dict_get].
  - rewrite pystr_eqb_refl. reflexivity.
  - destruct (pystr_eqb k0 k) eqn:Hk; cbn [dict_get]; rewrite Hk;
      [reflexivity | exact IH].
Qed.

Lemma dict_get_set_other {V : Type} (d : dict V) (k q : pystr) (v : V) :
  pystr_eqb q k = false ->
  dict_get (dict_set d k v) q = dict_get d q.
Proof.
  intros Hq.
  assert (Hkq : pystr_eqb k q = false).
  { destruct (pystr_eqb k q) eqn:H; [|reflexivity].
    apply pystr_eqb_eq in H. subst. rewrite pystr_eqb_refl in Hq. discriminate. }
  induction d as [|[k0 v0] d IH]; cbn [dict_set dict_get].
  - rewrite Hkq. reflexivity.
  - destruct (pystr_eqb k0 k) eqn:Hk; cbn [dict_get].
    + apply pystr_eqb_eq in Hk. subst. rewrite Hkq. reflexivity.
    + destruct (pystr_eqb k0 q); [reflexivity | exact IH].
Qed.

Lemma keeps_ret {A : Type} (x : A) : keeps_subs (ret x).
Proof. intros w. reflexivity. Qed.

Lemma keeps_lift {A : Type} (r : result A) : keeps_subs (lift r).
Proof. intros w. reflexivity. Qed.

Lemma keeps_read_subs : keeps_subs read_subs.
Proof. intros w. reflexivity. Qed.

Lemma keeps_emit (p : print_call) : keeps_subs (emit p).
Proof. intros w. reflexivity. Qed.

Lemma keeps_seq {A B : Type} (m : stmt A) (k : A -> stmt B) :
  keeps_subs m -> (forall x, keeps_subs (k x)) -> keeps_subs (seq_ m k).
Proof.
  intros Hm Hk w. unfold seq_. specialize (Hm w).
  destruct (m w) as [[x|e] w']; cbn [snd] in *; [|exact Hm].
  rewrite (Hk x w'). exact Hm.
Qed.

Lemma keeps_for {A : Type} (l : list A) (body : A -> stmt unit) :
  (forall x, keeps_subs (body x)) -> keeps_subs (for_ l body).
Proof.
  intros Hb. induction l as [|x l IH]; cbn [for_].
  - apply keeps_ret.
  - apply keeps_seq; [apply Hb | intros _; exact IH].
Qed.

Create HintDb keeps.
#[local] Hint Resolve keeps_ret keeps_lift keeps_read_subs keeps_emit : keeps.

Ltac keeps :=
  repeat first
    [ apply keeps_seq; [|intro]
    | apply keeps_for; intro
    | solve [auto with keeps]
    | match goal with
      | |- keeps_subs (match ?x with _ => _ end) => destruct x
      end ].

Lemma keeps_print_items (d : dict pystr) : keeps_subs (Substation.print_items d).
Proof. unfold Substation.print_items. keeps. Qed.

Lemma keeps_print_attachments (E : Env) (heading label : text)
      (d : dict (list pystr)) :
  keeps_subs (Substation.print_attachments E heading label d).
Proof. unfold Substation.print_attachments. keeps. Qed.

(** Printing never raises: a loop of prints returns. *)
Lemma for_emit_returns {A : Type} (l : list A) (f : A -> print_call) (w : world) :
  for_ l (fun x => emit (f x)) w = (Ok tt, mkWorld (w_subs w) (w_fp w ++ map f l)).
Proof.
  revert w. induction l as [|x l IH]; intros w; cbn [for_ map].
  - rewrite app_nil_r. destruct w; reflexivity.
  - unfold seq_ at 1. cbn [emit]. rewrite IH. cbn [w_subs w_fp].
    rewrite <- app_assoc. reflexivity.
Qed.

(** C2 as stated fails: serializing a document with an empty info mapping
    leaves a [ScriptType] entry in it. *)
Lemma to_file_sets_ScriptType :
  let after :=
    w_subs (snd (Substation.to_file sample_env ASS Substation.NOTICE
                   (mkWorld empty_file []))) in
  info empty_file = [] /\
  info after = [(Str (b "ScriptType"), Bytes (b "v4.00+"))] /\
  after <> empty_file.
Proof.
  cbn zeta. split; [reflexivity|]. split; [vm_compute; reflexivity|].
  vm_compute. discriminate.
Qed.

(** C2, amended: [to_file] assigns [info["ScriptType"]] ([b"v4.00+"] for
    ass, [b"v4.00"] otherwise) and changes nothing else: the Aegisub
    project, style, font and graphic mappings and the events are as
    before the call, and so is every info entry under another key, also
    when the call ends in an exception. *)
Theorem to_file_only_sets_ScriptType
        (E : Env) (subs : SSAFile) (format_ : format) (header_notice : text)
        (fp : list print_call) :
  let after :=
    w_subs (snd (Substation.to_file E format_ header_notice (mkWorld subs fp))) in
  let script_type := match format_ with ASS => b "v4.00+" | SSA => b "v4.00" end in
  info after = dict_set (info subs) (Str (b "ScriptType")) (Bytes script_type) /\
  dict_get (info after) (Str (b "ScriptType")) = Some (Bytes script_type) /\
  (forall k, pystr_eqb k (Str (b "ScriptType")) = false ->
             dict_get (info after) k = dict_get (info subs) k) /\
  aegisub_project after = aegisub_project subs /\
  styles after = styles subs /\
  fonts_opaque after = fonts_opaque subs /\
  graphics_opaque after = graphics_opaque subs /\
  events after = events subs.
Proof.
  cbn zeta.
  set (script_type := match format_ with ASS => b "v4.00+" | SSA => b "v4.00" end).
  assert (H : w_subs (snd (Substation.to_file E format_ header_notice
                             (mkWorld subs fp)))
              = mkFile (dict_set (info subs) (Str (b "ScriptType")) (Bytes script_type))
                       (aegisub_project subs) (styles subs) (fonts_opaque subs)
                       (graphics_opaque subs) (events subs)).
  { unfold Substation.to_file.
    unfold seq_ at 1. cbn [emit].
    unfold seq_ at 1. rewrite for_emit_returns.
    unfold seq_ at 1. cbn [info_setitem w_subs w_fp].
    match goal with
    | |- w_subs (snd (?m ?w)) = _ =>
      assert (K : keeps_subs m)
    end.
    { keeps; first [apply keeps_print_items | apply keeps_print_attachments]. }
    rewrite (K _). reflexivity. }
  rewrite H. cbn [info aegisub_project styles fonts_opaque graphics_opaque events].
  split; [reflexivity|].
  split; [apply dict_get_set_same|].
  split; [intros k Hk; apply dict_get_set_other; exact Hk|].
  repeat split.
Qed.

Lemma to_file_only_sets_ScriptType_witness :
  let subs := mkFile [(Bytes (b "Title"), Bytes (b "x"))] [] [] [] []
                     [event_with_text (b "old")] in
  let after :=
    w_subs (snd (Substation.to_file sample_env SSA Substation.NOTICE
                   (mkWorld subs []))) in
  dict_get (info after) (Bytes (b "Title")) = Some (Bytes (b "x")) /\
  dict_get (info after) (Str (b "ScriptType")) = Some (Bytes (b "v4.00")) /\
  events after = events subs.
Proof.
  intros subs after.
  pose proof (to_file_only_sets_ScriptType sample_env subs SSA Substation.NOTICE [])
    as (_ & H1 & H2 & _ & _ & _ & _ & H3).
  split; [exact (H2 (Bytes (b "Title")) eq_refl)|].
  split; [exact H1 | exact H3].
Defined.
